(** * Data classes of the experimental Cognite SDK: job handles, entity
      matching models, asset updates and the fan-out retrieval of related
      resources.

    Shallow embedding of
      - [cognite/experimental/data_classes/contextualization.py]
      - [cognite/experimental/data_classes/assets.py]
    Python objects become records, dictionaries become [gmap string value],
    exceptions become the [Raise] branch of a result type, and the network
    collaborator becomes an explicit script of server responses that the
    methods consume. *)

From Stdlib Require Import ZArith.
From stdpp Require Import gmap strings list fin_maps sets.

Set Warnings "-register-all,-clear-no-such-hyp".
Open Scope Z_scope.
Open Scope string_scope.

(** ** Python values *)

(** The dynamically typed values that flow through the data classes: JSON
    payloads of the server and the arguments callers hand to the SDK.  A float
    is only ever carried around, never computed with; it is kept as a decimal
    [m * 10^e].  A [str] is kept as its UTF-8 bytes.  [VSet] stands for the
    sized containers that cannot be indexed (a [set] or [frozenset], its
    elements listed once). *)
Inductive value : Type :=
  | VNone
  | VBool (b : bool)
  | VInt (z : Z)
  | VFloat (m e : Z)
  | VStr (s : string)
  | VTuple (l : list value)
  | VList (l : list value)
  | VDict (d : gmap string value)
  | VSet (l : list value).

(** The exceptions the embedded code can raise. [ModelFailedException] carries
    the three constructor arguments it is raised with. *)
Inductive exn : Type :=
  | TypeError
  | KeyError (key : string)
  | IndexError
  | AttributeError
  | Exception (msg : string)
  | ModelFailedException (typ : string) (id : value) (error_message : value).

(** What a call does: it returns, it raises, or it is still blocked on the
    network because the scripted server has no further response ([Pending];
    only the polling methods can be in that state). *)
Inductive outcome (A : Type) : Type :=
  | Ok (a : A)
  | Raise (e : exn)
  | Pending.
Arguments Ok {A} a.
Arguments Raise {A} e.
Arguments Pending {A}.

#[global] Instance outcome_ret : MRet outcome := λ A a, Ok a.
#[global] Instance outcome_bind : MBind outcome := λ A B f m,
  match m with
  | Ok a => f a
  | Raise e => Raise e
  | Pending => Pending
  end.

(** [isinstance(v, dict)] and [isinstance(v, str)]. *)
Definition isinstance_dict (v : value) : bool :=
  match v with VDict _ => true | _ => false end.

Definition isinstance_str (v : value) : bool :=
  match v with VStr _ => true | _ => false end.

(** A UTF-8 continuation byte, [10xxxxxx]. *)
Definition is_continuation (a : Ascii.ascii) : bool :=
  match a with Ascii.Ascii _ _ _ _ _ _ b6 b7 => b7 && negb b6 end.

(** The characters (code points) of a [str], each as the bytes that encode
    it: a byte opens a new character unless it is a continuation byte, so a
    byte is put in front of what follows it when that starts with a
    continuation byte. *)
Fixpoint code_points (s : string) : list string :=
  match s with
  | EmptyString => []
  | String a s' =>
      match code_points s' with
      | String b c :: cs =>
          if is_continuation b
          then String a (String b c) :: cs
          else String a EmptyString :: String b c :: cs
      | cs => String a EmptyString :: cs
      end
  end.

(** [len(v)]: the number of characters of a string, of elements of a
    tuple, list or set, of keys of a dict; a [TypeError] on every other
    value. *)
Definition py_len (v : value) : outcome Z :=
  match v with
  | VStr s => Ok (Z.of_nat (length (code_points s)))
  | VTuple l | VList l | VSet l => Ok (Z.of_nat (length l))
  | VDict d => Ok (Z.of_nat (size d))
  | VNone | VBool _ | VInt _ | VFloat _ _ => Raise TypeError
  end.

(** [v[i]] for a non-negative literal index [i]: positional on tuples, lists
    and strings (the one-character string); a set is not subscriptable. *)
Definition py_getitem (v : value) (i : nat) : outcome value :=
  match v with
  | VTuple l | VList l =>
      match l !! i with Some x => Ok x | None => Raise IndexError end
  | VStr s =>
      match code_points s !! i with
      | Some c => Ok (VStr c)
      | None => Raise IndexError
      end
  | VDict _ => Raise (KeyError "")
  | VNone | VBool _ | VInt _ | VFloat _ _ | VSet _ => Raise TypeError
  end.

(** Truth value of an object, as tested by [if v], [not v] and [v or w]. *)
Definition truthy (v : value) : bool :=
  match v with
  | VNone => false
  | VBool b => b
  | VInt z => negb (Z.eqb z 0)
  | VFloat m _ => negb (Z.eqb m 0)
  | VStr s => negb (String.eqb s "")
  | VTuple l | VList l | VSet l => match l with [] => false | _ => true end
  | VDict d => negb (bool_decide (d = ∅))
  end.

(** [v or w]. *)
Definition py_or (v w : value) : value := if truthy v then v else w.

(** [d.get(k)]: [None] when the key is absent. *)
Definition dict_get (d : gmap string value) (k : string) : value :=
  default VNone (d !! k).

(** [d[k]]: [KeyError] when the key is absent. *)
Definition dict_getitem (d : gmap string value) (k : string) : outcome value :=
  match d !! k with Some v => Ok v | None => Raise (KeyError k) end.

(** [v == s] for a string literal [s]. *)
Definition eq_str (v : value) (s : string) : bool :=
  match v with VStr s' => String.eqb s' s | _ => false end.

(** [v in [s1, s2, ...]] for a list of string literals. *)
Definition in_strs (v : value) (l : list string) : bool :=
  existsb (eq_str v) l.

(** ** contextualization.py: [convert_true_match] *)

(** One round of the loop [for i, fromto in enumerate(["from", "to"])]. *)
Definition convert_step (true_match : value) (i : nat) (fromto : string)
    (converted_true_match : gmap string value) : outcome (gmap string value) :=
  x ← py_getitem true_match i;
  if isinstance_str x
  then Ok (<[fromto +:+ "ExternalId" := x]> converted_true_match)
  else Ok (<[fromto +:+ "Id" := x]> converted_true_match).

(** [not isinstance(true_match, dict) and len(true_match) == 2]: the [and]
    only evaluates [len] when the first operand is true. *)
Definition convert_true_match (true_match : value) : outcome value :=
  if negb (isinstance_dict true_match) then
    n ← py_len true_match;
    if Z.eqb n 2 then
      converted_true_match ←
        foldl (λ acc '(i, fromto), d ← acc; convert_step true_match i fromto d)
              (Ok ∅) (imap pair ["from"; "to"]);
      Ok (VDict converted_true_match)
    else Ok true_match
  else Ok true_match.


(** A sequence of exactly two elements: a pair, a two-element list, a
    two-character string. *)
Definition two_element_sequence (v : value) : bool :=
  match v with
  | VTuple l | VList l => Nat.eqb (length l) 2
  | VStr s => Nat.eqb (length (code_points s)) 2
  | _ => false
  end.

(** ** The network collaborator *)

(** A decoded JSON object, as returned by [response.json()]. *)
Abbreviation response := (gmap string value).

(** The status endpoint of one handle is scripted as the list of the JSON
    bodies it will answer, in order: each GET consumes the head.  When the
    script is exhausted the GET does not come back ([Pending]).
    [time.sleep(interval)] between two polls has no effect on any of the
    modelled state and is left out. *)

(** A poll response that keeps [wait_for_completion] in its loop. *)
Definition keeps_waiting (data : response) : Prop :=
  ∃ st, data !! "status" = Some st ∧ in_strs st ["Queued"; "Running"] = true.

(** ** contextualization.py: [ContextualizationJob] and its subclass
       [EntityMatchingPipelineRun] *)

Module ContextualizationJob.

(** The class an instance was created from; [EntityMatchingPipelineRun]
    inherits every method below and overrides [_COMMON_FIELDS]. *)
Inductive class : Type :=
  | cls_ContextualizationJob
  | cls_EntityMatchingPipelineRun.

(** [self.__class__.__name__] *)
Definition class_name (c : class) : string :=
  match c with
  | cls_ContextualizationJob => "ContextualizationJob"
  | cls_EntityMatchingPipelineRun => "EntityMatchingPipelineRun"
  end.

Definition _COMMON_FIELDS : gset string :=
  {[ "status"; "jobId"; "errorMessage"; "requestTimestamp";
     "startTimestamp"; "statusTimestamp" ]}.

(** [EntityMatchingPipelineRun._COMMON_FIELDS =
     ContextualizationJob._COMMON_FIELDS & {"pipeline_id"}] *)
Definition EntityMatchingPipelineRun_COMMON_FIELDS : gset string :=
  _COMMON_FIELDS ∩ {[ "pipeline_id" ]}.

(** Attribute lookup [self._COMMON_FIELDS] through the instance's class. *)
Definition self_COMMON_FIELDS (c : class) : gset string :=
  match c with
  | cls_ContextualizationJob => _COMMON_FIELDS
  | cls_EntityMatchingPipelineRun => EntityMatchingPipelineRun_COMMON_FIELDS
  end.

(** The instance attributes set by [__init__]; [_result] is [None] until
    the first poll stores a dict. [pipeline_id] is only meaningful on a
    pipeline run. *)
Record t : Type := mk {
  __class__ : class;
  job_id : value;
  status : value;
  request_timestamp : value;
  start_timestamp : value;
  status_timestamp : value;
  error_message : value;
  _result : option (gmap string value);
  pipeline_id : value
}.

(** [__init__]: every argument defaults to [None]. *)
Definition init (c : class) (job_id : value) : t :=
  mk c job_id VNone VNone VNone VNone VNone None VNone.

(** The body of [update_status] once the GET has returned [data]. *)
Definition poll (self : t) (data : response) : outcome t :=
  st ← dict_getitem data "status";
  Ok {| __class__ := __class__ self;
        job_id := job_id self;
        status := st;
        status_timestamp := dict_get data "statusTimestamp";
        start_timestamp := dict_get data "startTimestamp";
        request_timestamp :=
          py_or (request_timestamp self) (dict_get data "requestTimestamp");
        error_message := dict_get data "errorMessage";
        _result :=
          Some (filter (λ kv, kv.1 ∉ self_COMMON_FIELDS (__class__ self)) data);
        pipeline_id := pipeline_id self |}.

(** [update_status]: one GET, then the assignments; returns the status
    together with the mutated handle and the rest of the script. *)
Definition update_status (self : t) (net : list response)
    : outcome value * t * list response :=
  match net with
  | [] => (Pending, self, [])
  | data :: net' =>
      match poll self data with
      | Ok self' => (Ok (status self'), self', net')
      | Raise e => (Raise e, self, net')
      | Pending => (Pending, self, net')
      end
  end.

(** The tail of [wait_for_completion] after the loop. *)
Definition raise_if_failed (self : t) : outcome unit :=
  if eq_str (status self) "Failed"
  then Raise (ModelFailedException (class_name (__class__ self))
                (job_id self) (error_message self))
  else Ok tt.

(** [wait_for_completion]: [while True: update_status(); if status not in
    ["Queued", "Running"]: break; sleep]. The recursion follows the script
    of responses, one per iteration. *)
Fixpoint wait_for_completion (self : t) (net : list response)
    : outcome unit * t * list response :=
  match net with
  | [] => (Pending, self, [])
  | data :: net' =>
      match poll self data with
      | Ok self' =>
          if negb (in_strs (status self') ["Queued"; "Running"])
          then (raise_if_failed self', self', net')
          else wait_for_completion self' net'
      | Raise e => (Raise e, self, net')
      | Pending => (Pending, self, net')
      end
  end.

(** [not self._result]: true on [None] and on the empty dict. *)
Definition not_result (r : option (gmap string value)) : bool :=
  match r with
  | None => true
  | Some d => negb (truthy (VDict d))
  end.

(** The [result] property. *)
Definition result (self : t) (net : list response)
    : outcome (option (gmap string value)) * t * list response :=
  if not_result (_result self) then
    match wait_for_completion self net with
    | (Ok _, self', net') => (Ok (_result self'), self', net')
    | (Raise e, self', net') => (Raise e, self', net')
    | (Pending, self', net') => (Pending, self', net')
    end
  else (Ok (_result self), self, net).

End ContextualizationJob.

(** ** contextualization.py: [EntityMatchingModel] *)

Module EntityMatchingModel.

Record t : Type := mk {
  id : value;
  status : value;
  request_timestamp : value;
  start_timestamp : value;
  status_timestamp : value;
  error_message : value;
  classifier : value;
  feature_type : value;
  match_fields : value;
  model_type : value;
  name : value;
  description : value;
  external_id : value
}.

Definition class_name : string := "EntityMatchingModel".

(** The body of [update_status] once the GET has returned [data]. *)
Definition poll (self : t) (data : response) : outcome t :=
  st ← dict_getitem data "status";
  Ok {| id := id self;
        status := st;
        status_timestamp := dict_get data "statusTimestamp";
        start_timestamp := dict_get data "startTimestamp";
        request_timestamp :=
          py_or (request_timestamp self) (dict_get data "requestTimestamp");
        error_message := dict_get data "errorMessage";
        classifier := classifier self;
        feature_type := feature_type self;
        match_fields := match_fields self;
        model_type := model_type self;
        name := name self;
        description := description self;
        external_id := external_id self |}.

Definition update_status (self : t) (net : list response)
    : outcome value * t * list response :=
  match net with
  | [] => (Pending, self, [])
  | data :: net' =>
      match poll self data with
      | Ok self' => (Ok (status self'), self', net')
      | Raise e => (Raise e, self, net')
      | Pending => (Pending, self, net')
      end
  end.

Definition raise_if_failed (self : t) : outcome unit :=
  if eq_str (status self) "Failed"
  then Raise (ModelFailedException class_name (id self) (error_message self))
  else Ok tt.

Fixpoint wait_for_completion (self : t) (net : list response)
    : outcome unit * t * list response :=
  match net with
  | [] => (Pending, self, [])
  | data :: net' =>
      match poll self data with
      | Ok self' =>
          if negb (in_strs (status self') ["Queued"; "Running"])
          then (raise_if_failed self', self', net')
          else wait_for_completion self' net'
      | Raise e => (Raise e, self, net')
      | Pending => (Pending, self, net')
      end
  end.

(** An element of [match_from] / [match_to]: a [CogniteResource], given by
    what its [dump(camel_case=True)] returns, or any other object (a plain
    dict, by the type annotation). *)
Inductive entity : Type :=
  | Resource (dump : gmap string value)
  | Plain (e : value).

(** The condition of the inner comprehension:
    [isinstance(v, str) or k == "id"]. *)
Definition kept (kv : string * value) : bool :=
  isinstance_str kv.2 || String.eqb kv.1 "id".

Definition dump_entity (e : entity) : value :=
  match e with
  | Resource dump => VDict (filter (λ kv, kept kv = true) dump)
  | Plain e => e
  end.

(** [dump_entities]: [None] for [None] and for the empty list (the
    function falls off its end), the comprehension otherwise. *)
Definition dump_entities (entities : option (list entity))
    : option (list value) :=
  match entities with
  | None | Some [] => None
  | Some es => Some (dump_entity <$> es)
  end.

(** The world [refit] runs in: the objects alive in the client, the
    script of the status endpoint, the server's answer to a POST as a
    function of path and JSON body, and [_load], the class method inherited
    from the base SDK's [CogniteResource] that builds an instance from a
    JSON object; it is kept as the function it is for this class. *)
Record world : Type := mk_world {
  heap : gmap nat t;
  polls : list response;
  post : string → gmap string value → response;
  _load : response → t
}.

(** [refit] on the instance stored at reference [self]. The conversions
    run first, then the wait (which writes the polled status back into
    the receiver), then the POST, then [_load] allocates the new model. *)
Definition refit (self : nat) (true_matches : list value) (w : world)
    : outcome nat * world :=
  match heap w !! self with
  | None => (Raise AttributeError, w) (* no object: not a receiver *)
  | Some m =>
      match mapM convert_true_match true_matches with
      | Ok true_matches' =>
          match wait_for_completion m (polls w) with
          | (Ok _, m', net') =>
              let json := {[ "trueMatches" := VList true_matches';
                             "id" := id m' ]} in
              let new := _load w (post w "/refit" json) in
              let r := fresh (dom (heap w)) in
              (Ok r, mk_world (<[r := new]> (<[self := m']> (heap w)))
                              net' (post w) (_load w))
          | (Raise e, m', net') =>
              (Raise e, mk_world (<[self := m']> (heap w)) net' (post w)
                                 (_load w))
          | (Pending, m', net') =>
              (Pending, mk_world (<[self := m']> (heap w)) net' (post w)
                                 (_load w))
          end
      | Raise e => (Raise e, w)
      | Pending => (Pending, w)
      end
  end.

(** The attributes of a model that no status poll assigns. *)
Definition same_model (m m' : t) : Prop :=
  id m' = id m ∧ classifier m' = classifier m ∧
  feature_type m' = feature_type m ∧ match_fields m' = match_fields m ∧
  model_type m' = model_type m ∧ name m' = name m ∧
  description m' = description m ∧ external_id m' = external_id m.

(** The keyword arguments [predict] hands to [entity_matching._run_job]. *)
Record job_request : Type := mk_job_request {
  job_path : string;
  status_path : string;
  request_id : value;
  request_match_from : option (list value);
  request_match_to : option (list value);
  request_num_matches : value;
  request_score_threshold : value
}.

(** [predict]: the wait on the model, then the job request. [_run_job]
    belongs to the API client; it is taken as the function from the request
    to the job handle it returns. *)
Definition predict (self : t) (match_from match_to : option (list entity))
    (num_matches score_threshold : value)
    (_run_job : job_request → ContextualizationJob.t) (net : list response)
    : outcome ContextualizationJob.t * t * list response :=
  match wait_for_completion self net with
  | (Ok _, self', net') =>
      (Ok (_run_job {| job_path := "/predict";
                       status_path := "/jobs/";
                       request_id := id self';
                       request_match_from := dump_entities match_from;
                       request_match_to := dump_entities match_to;
                       request_num_matches := num_matches;
                       request_score_threshold := score_threshold |}),
       self', net')
  | (Raise e, self', net') => (Raise e, self', net')
  | (Pending, self', net') => (Pending, self', net')
  end.

End EntityMatchingModel.

(** ** assets.py: [AssetUpdate] *)

Module AssetUpdate.

(** [v is None] *)
Definition is_None (v : value) : bool :=
  match v with VNone => true | _ => false end.

(** [if d.get(key) is None: d[key] = empty] *)
Definition setdefault_None (key : string) (empty : value)
    (d : gmap string value) : gmap string value :=
  if is_None (dict_get d key) then <[key := empty]> d else d.

(** [d[key]] used as a dict (its [.get] and item assignment): anything
    else has no such attribute. *)
Definition getitem_dict (d : gmap string value) (key : string)
    : outcome (gmap string value) :=
  v ← dict_getitem d key;
  match v with VDict d' => Ok d' | _ => Raise AttributeError end.

(** [d[key]] used as a list (its [.append]). *)
Definition getitem_list (d : gmap string value) (key : string)
    : outcome (list value) :=
  v ← dict_getitem d key;
  match v with VList l => Ok l | _ => Raise AttributeError end.

(** The [types] and [labels] properties: reading them raises. *)
Definition types (_update_object : gmap string value) : outcome value :=
  Raise (Exception
    "Use the put_type and remove_type functions to handle type updates").

Definition labels (_update_object : gmap string value) : outcome value :=
  Raise (Exception
    "Use the put_label and remove_label functions to handle label updates").

(** The four builders act on [self._update_object], which they mutate in
    place and which is returned here. *)
Definition put_type (properties version id external_id : value)
    (_update_object : gmap string value) : outcome (gmap string value) :=
  let u := setdefault_None "types" (VDict ∅) _update_object in
  d ← getitem_dict u "types";
  let d := setdefault_None "put" (VList []) d in
  l ← getitem_list d "put";
  let entry := VDict {[ "type" := VDict {[ "id" := id;
                                          "externalId" := external_id;
                                          "version" := version ]};
                        "properties" := properties ]} in
  Ok (<["types" := VDict (<["put" := VList (l ++ [entry])]> d)]> u).

Definition remove_type (version id external_id : value)
    (_update_object : gmap string value) : outcome (gmap string value) :=
  let u := setdefault_None "types" (VDict ∅) _update_object in
  d ← getitem_dict u "types";
  let d := setdefault_None "remove" (VList []) d in
  l ← getitem_list d "remove";
  let entry := VDict {[ "id" := id; "externalId" := external_id;
                        "version" := version ]} in
  Ok (<["types" := VDict (<["remove" := VList (l ++ [entry])]> d)]> u).

Definition put_label (external_id : value)
    (_update_object : gmap string value) : outcome (gmap string value) :=
  let u := setdefault_None "labels" (VDict ∅) _update_object in
  d ← getitem_dict u "labels";
  let d := setdefault_None "put" (VList []) d in
  l ← getitem_list d "put";
  let entry := VDict {[ "externalId" := external_id ]} in
  Ok (<["labels" := VDict (<["put" := VList (l ++ [entry])]> d)]> u).

Definition remove_label (external_id : value)
    (_update_object : gmap string value) : outcome (gmap string value) :=
  let u := setdefault_None "labels" (VDict ∅) _update_object in
  d ← getitem_dict u "labels";
  let d := setdefault_None "remove" (VList []) d in
  l ← getitem_list d "remove";
  let entry := VDict {[ "externalId" := external_id ]} in
  Ok (<["labels" := VDict (<["remove" := VList (l ++ [entry])]> d)]> u).

(** The entries recorded so far under [_update_object[field][which]]. *)
Definition bucket (u : gmap string value) (field which : string)
    : list value :=
  match u !! field with
  | Some (VDict d) =>
      match d !! which with Some (VList l) => l | _ => [] end
  | _ => []
  end.

(** The shape every update object built by this class has: [types] and
    [labels] are absent, [None], or a dict whose [put] and [remove] are
    absent, [None], or a list. *)
Definition bucket_ok (d : gmap string value) (which : string) : bool :=
  match d !! which with
  | None | Some VNone | Some (VList _) => true
  | Some _ => false
  end.

Definition field_ok (u : gmap string value) (field : string) : bool :=
  match u !! field with
  | None | Some VNone => true
  | Some (VDict d) => bucket_ok d "put" && bucket_ok d "remove"
  | Some _ => false
  end.

Definition well_formed (u : gmap string value) : bool :=
  field_ok u "types" && field_ok u "labels".

(** The statements the four builders share, for a field and a bucket. *)
Definition append_under (field which : string) (entry : value)
    (_update_object : gmap string value) : outcome (gmap string value) :=
  let u := setdefault_None field (VDict ∅) _update_object in
  d ← getitem_dict u field;
  let d := setdefault_None which (VList []) d in
  l ← getitem_list d which;
  Ok (<[field := VDict (<[which := VList (l ++ [entry])]> d)]> u).

(** The dict stored under [field], empty when there is none yet. *)
Definition subdict (u : gmap string value) (field : string)
    : gmap string value :=
  match u !! field with Some (VDict d) => d | _ => ∅ end.

(** [op] succeeds on [u], appends [entry] to the bucket [field.which],
    leaves every other bucket as it was and keeps the object well formed. *)
Definition records_under (op : gmap string value → outcome (gmap string value))
    (field which : string) (entry : value) (u : gmap string value) : Prop :=
  ∃ u', op u = Ok u' ∧
        bucket u' field which = (bucket u field which ++ [entry])%list ∧
        (∀ f w, (f, w) ≠ (field, which) → bucket u' f w = bucket u f w) ∧
        well_formed u' = true.

(** A call of one of the four builders, with its arguments. The builders
    return [self], so a caller chains them: [u.put_label(a).remove_label(b)]. *)
Inductive call : Type :=
  | call_put_type (properties version id external_id : value)
  | call_remove_type (version id external_id : value)
  | call_put_label (external_id : value)
  | call_remove_label (external_id : value).

Definition run_call (c : call) (_update_object : gmap string value)
    : outcome (gmap string value) :=
  match c with
  | call_put_type properties version id external_id =>
      put_type properties version id external_id _update_object
  | call_remove_type version id external_id =>
      remove_type version id external_id _update_object
  | call_put_label external_id => put_label external_id _update_object
  | call_remove_label external_id => remove_label external_id _update_object
  end.

(** A chain of calls, left to right; the first exception ends it. *)
Fixpoint run_calls (cs : list call) (_update_object : gmap string value)
    : outcome (gmap string value) :=
  match cs with
  | [] => Ok _update_object
  | c :: cs' => u ← run_call c _update_object; run_calls cs' u
  end.

(** The bucket a call writes to, and the entry it appends there. *)
Definition call_bucket (c : call) : string * string :=
  match c with
  | call_put_type _ _ _ _ => ("types", "put")
  | call_remove_type _ _ _ => ("types", "remove")
  | call_put_label _ => ("labels", "put")
  | call_remove_label _ => ("labels", "remove")
  end.

Definition call_entry (c : call) : value :=
  match c with
  | call_put_type properties version id external_id =>
      VDict {[ "type" := VDict {[ "id" := id; "externalId" := external_id;
                                  "version" := version ]};
               "properties" := properties ]}
  | call_remove_type version id external_id =>
      VDict {[ "id" := id; "externalId" := external_id; "version" := version ]}
  | call_put_label external_id | call_remove_label external_id =>
      VDict {[ "externalId" := external_id ]}
  end.

(** The entries a chain of calls sends to one bucket, in call order. *)
Definition entries_for (field which : string) (cs : list call) : list value :=
  call_entry <$> filter (λ c, call_bucket c = (field, which)) cs.

End AssetUpdate.

(** ** assets.py: [AssetList._retrieve_related_resources] *)

Module AssetList.

(** A related resource (time series, sequence, event, file): its
    server-assigned [id] and the rest of its content. *)
Record resource : Type := mk_resource {
  id : Z;
  content : gmap string value
}.

(** [self._retrieve_chunk_size], as set by [__init__]. *)
Definition _retrieve_chunk_size : nat := 100.

(** The critical section of [retrieve_and_deduplicate], run under the
    lock: the loop over [res] that appends the resources whose id has not
    been seen and adds their ids to the shared set. *)
Fixpoint deduplicate (res : list resource) (seen : gset Z)
    : list resource * gset Z :=
  match res with
  | [] => ([], seen)
  | r :: res' =>
      if decide (id r ∈ seen)
      then deduplicate res' seen
      else let '(resources, seen') := deduplicate res' ({[ id r ]} ∪ seen) in
           (r :: resources, seen')
  end.

(** [retrieve_and_deduplicate(asset_ids)]: the list request, made outside
    the lock, answered by the server as a function of the asset ids; then
    the critical section. *)
Definition retrieve_and_deduplicate (list_api : list Z → list resource)
    (asset_ids : list Z) (seen : gset Z) : list resource * gset Z :=
  deduplicate (list_api asset_ids) seen.

(** The tasks: [ids[i : i + chunk]] for [i] in [range(0, len(ids), chunk)].
    The fuel bounds the number of slices by the number of ids. *)
Fixpoint chunks (fuel chunk : nat) (ids : list Z) : list (list Z) :=
  match fuel, ids with
  | O, _ | _, [] => []
  | S fuel', _ => take chunk ids :: chunks fuel' chunk (drop chunk ids)
  end.

(** [execute_tasks_concurrently] of the base SDK runs the tasks on a pool
    of worker threads and lists the results in task order.  The lock makes
    the critical sections of the workers run one after the other, in an
    order the pool decides: the [schedule] lists the task numbers in that
    order.  [run_schedule] threads the shared [seen] set through the
    critical sections and stores each task's result under its number. *)
Fixpoint run_schedule (list_api : list Z → list resource)
    (tasks : list (list Z)) (schedule : list nat)
    (seen : gset Z) (results : gmap nat (list resource))
    : gset Z * gmap nat (list resource) :=
  match schedule with
  | [] => (seen, results)
  | i :: schedule' =>
      match tasks !! i with
      | Some asset_ids =>
          let '(resources, seen') :=
            retrieve_and_deduplicate list_api asset_ids seen in
          run_schedule list_api tasks schedule' seen'
                       (<[i := resources]> results)
      | None => run_schedule list_api tasks schedule' seen results
      end
  end.

Definition execute_tasks_concurrently (list_api : list Z → list resource)
    (tasks : list (list Z)) (schedule : list nat) : list (list resource) :=
  let '(_, results) := run_schedule list_api tasks schedule ∅ ∅ in
  (λ i, default [] (results !! i)) <$> seq 0 (length tasks).

(** [_retrieve_related_resources] on the assets with the given ids:
    [resources.extend(res)] for each task result, in order.  [chunk] is
    the instance's [_retrieve_chunk_size]; it is positive ([range] refuses
    a zero step). *)
Definition _retrieve_related_resources (list_api : list Z → list resource)
    (chunk : nat) (ids : list Z) (schedule : list nat) : list resource :=
  let tasks := chunks (length ids) chunk ids in
  concat (execute_tasks_concurrently list_api tasks schedule).

(** The ids of a list of resources. *)
Definition ids_of (l : list resource) : list Z := id <$> l.

(** What the lock maintains between two critical sections: every stored
    task result is free of repeated ids, lies within [seen], and shares no
    id with the result of another task. *)
Definition deduplicated (seen : gset Z) (results : gmap nat (list resource))
    : Prop :=
  (∀ i out, results !! i = Some out →
            NoDup (ids_of out) ∧ ∀ x, x ∈ ids_of out → x ∈ seen) ∧
  (∀ i j a b, i ≠ j → results !! i = Some a → results !! j = Some b →
              ∀ x, x ∈ ids_of a → x ∉ ids_of b).

End AssetList.

(** ** Sample handles and server scripts used by the examples *)

Module Samples.

Definition running_at_5 : response :=
  {[ "status" := VStr "Running"; "startTimestamp" := VInt 5;
     "statusTimestamp" := VInt 6; "requestTimestamp" := VInt 4 ]}.

Definition running_bare : response := {[ "status" := VStr "Running" ]}.

Definition queued : response :=
  {[ "status" := VStr "Queued"; "jobId" := VInt 7 ]}.

Definition running : response :=
  {[ "status" := VStr "Running"; "jobId" := VInt 7 ]}.

Definition failed : response :=
  {[ "status" := VStr "Failed"; "jobId" := VInt 7;
     "errorMessage" := VStr "out of memory" ]}.

Definition completed_items : response :=
  {[ "status" := VStr "Completed"; "jobId" := VInt 7;
     "items" := VList [VInt 1] ]}.

Definition completed_bare : response :=
  {[ "status" := VStr "Completed"; "jobId" := VInt 7 ]}.

Definition job : ContextualizationJob.t :=
  ContextualizationJob.init ContextualizationJob.cls_ContextualizationJob
                            (VInt 7).

Definition pipeline_run : ContextualizationJob.t :=
  ContextualizationJob.init
    ContextualizationJob.cls_EntityMatchingPipelineRun (VInt 7).

Definition model : EntityMatchingModel.t :=
  {| EntityMatchingModel.id := VInt 7;
     EntityMatchingModel.status := VStr "Queued";
     EntityMatchingModel.request_timestamp := VNone;
     EntityMatchingModel.start_timestamp := VNone;
     EntityMatchingModel.status_timestamp := VNone;
     EntityMatchingModel.error_message := VNone;
     EntityMatchingModel.classifier := VStr "RandomForest";
     EntityMatchingModel.feature_type := VNone;
     EntityMatchingModel.match_fields := VNone;
     EntityMatchingModel.model_type := VNone;
     EntityMatchingModel.name := VStr "pumps";
     EntityMatchingModel.description := VNone;
     EntityMatchingModel.external_id := VNone |}.

(** A loader to run the examples with: it reads the id, the status and the
    name of a response that spells them [id], [status] and [name]. *)
Definition sample_load (resource : response) : EntityMatchingModel.t :=
  {| EntityMatchingModel.id := dict_get resource "id";
     EntityMatchingModel.status := dict_get resource "status";
     EntityMatchingModel.request_timestamp := VNone;
     EntityMatchingModel.start_timestamp := VNone;
     EntityMatchingModel.status_timestamp := VNone;
     EntityMatchingModel.error_message := VNone;
     EntityMatchingModel.classifier := VNone;
     EntityMatchingModel.feature_type := VNone;
     EntityMatchingModel.match_fields := VNone;
     EntityMatchingModel.model_type := VNone;
     EntityMatchingModel.name := dict_get resource "name";
     EntityMatchingModel.description := VNone;
     EntityMatchingModel.external_id := VNone |}.

Definition pump : gmap string value :=
  {[ "id" := VInt 7; "name" := VStr "pump"; "score" := VFloat 9 (-1) ]}.

(** A client holding the sample model at reference 0, a status endpoint
    that answers Completed at once, and a server that answers the refit
    request with a new model, queued. *)
Definition refit_world : EntityMatchingModel.world :=
  {| EntityMatchingModel.heap := {[ 0%nat := model ]};
     EntityMatchingModel.polls :=
       [ {[ "status" := VStr "Completed"; "statusTimestamp" := VInt 9 ]} ];
     EntityMatchingModel.post := λ _ _,
       {[ "id" := VInt 8; "status" := VStr "Queued" ]};
     EntityMatchingModel._load := sample_load |}.

(** Three parents all linked to resource 100, parents 1 and 2 also to
    101 and 102, parent 3 to 103 and 104. *)
Definition related (asset_ids : list Z) : list AssetList.resource :=
  let r (n : Z) := AssetList.mk_resource n ∅ in
  (if bool_decide (1 ∈ asset_ids ∨ 2 ∈ asset_ids ∨ 3 ∈ asset_ids)
   then [r 100] else [])
  ++ (if bool_decide (1 ∈ asset_ids ∨ 2 ∈ asset_ids) then [r 101; r 102] else [])
  ++ (if bool_decide (3 ∈ asset_ids) then [r 103; r 104] else []).

End Samples.

(** * Properties *)

(** ** True-match normalization *)

Lemma convert_true_match_dict (d : gmap string value) :
  convert_true_match (VDict d) = Ok (VDict d).
Proof. reflexivity. Qed.

Lemma convert_true_match_unsized (v : value) :
  py_len v = Raise TypeError → convert_true_match v = Raise TypeError.
Proof.
  intros Hn. destruct v; try discriminate Hn; reflexivity.
Qed.

(** C6. A two-element tuple or list [(a, b)] is converted into the dict with
    key [fromExternalId] (if [a] is a string) or [fromId] (otherwise) bound to
    [a], and key [toExternalId] (if [b] is a string) or [toId] (otherwise)
    bound to [b]; in particular [(101, "ext-5")] gives
    [{"fromId": 101, "toExternalId": "ext-5"}]. A dict is returned as it is. *)
Theorem convert_true_match_pair :
  (∀ a b : value,
     let converted : gmap string value :=
       {[ (if isinstance_str a then "fromExternalId" else "fromId") := a;
          (if isinstance_str b then "toExternalId" else "toId") := b ]} in
     convert_true_match (VTuple [a; b]) = Ok (VDict converted) ∧
     convert_true_match (VList [a; b]) = Ok (VDict converted)) ∧
  convert_true_match (VTuple [VInt 101; VStr "ext-5"])
    = Ok (VDict {[ "fromId" := VInt 101; "toExternalId" := VStr "ext-5" ]}) ∧
  convert_true_match (VTuple [VStr "ext-1"; VStr "ext-2"])
    = Ok (VDict {[ "fromExternalId" := VStr "ext-1";
                   "toExternalId" := VStr "ext-2" ]}) ∧
  (∀ d : gmap string value, convert_true_match (VDict d) = Ok (VDict d)).
Proof.
  split; [| split; [reflexivity | split; [reflexivity |]]].
  - intros a b converted. subst converted.
    unfold convert_true_match, convert_step; cbn.
    destruct (isinstance_str a), (isinstance_str b); cbn; split; reflexivity.
  - exact convert_true_match_dict.
Qed.

(** An input without a length never reaches the comparison with 2. *)
Lemma convert_true_match_int_raises :
  ¬ (∀ v : value,
       isinstance_dict v = false → two_element_sequence v = false →
       convert_true_match v = Ok v).
Proof.
  intros H. specialize (H (VInt 5) eq_refl eq_refl). discriminate H.
Qed.

(** C10 (amended). An input that is not a dict and whose length is defined
    and different from 2 (a three-element tuple, an empty list) is returned
    unchanged, without any error. *)
Theorem convert_true_match_other_length (v : value) (n : Z)
    (Hdict : isinstance_dict v = false)
    (Hlen : py_len v = Ok n)
    (Hne : n ≠ 2) :
  convert_true_match v = Ok v.
Proof.
  unfold convert_true_match. rewrite Hdict, Hlen. cbn.
  destruct (Z.eqb_spec n 2); [contradiction | reflexivity].
Qed.

Lemma convert_true_match_other_length_witness :
  convert_true_match (VTuple [VInt 1; VInt 2; VStr "c"])
    = Ok (VTuple [VInt 1; VInt 2; VStr "c"]) ∧
  convert_true_match (VList []) = Ok (VList []).
Proof.
  split.
  - apply (convert_true_match_other_length _ 3); [reflexivity | reflexivity | lia].
  - apply (convert_true_match_other_length _ 0); [reflexivity | reflexivity | lia].
Defined.

(** ** Job handles: [update_status] *)

Lemma dict_getitem_Some (d : gmap string value) (k : string) (v : value) :
  d !! k = Some v → dict_getitem d k = Ok v.
Proof. intros H. unfold dict_getitem. by rewrite H. Qed.

(** What one poll assigns on a [ContextualizationJob]. *)
Lemma job_poll_fields (self : ContextualizationJob.t) (data : response)
    (st : value) :
  data !! "status" = Some st →
  ∃ self',
    ContextualizationJob.poll self data = Ok self' ∧
    ContextualizationJob.__class__ self' = ContextualizationJob.__class__ self ∧
    ContextualizationJob.job_id self' = ContextualizationJob.job_id self ∧
    ContextualizationJob.status self' = st ∧
    ContextualizationJob.status_timestamp self' = dict_get data "statusTimestamp" ∧
    ContextualizationJob.start_timestamp self' = dict_get data "startTimestamp" ∧
    ContextualizationJob.request_timestamp self'
      = py_or (ContextualizationJob.request_timestamp self)
              (dict_get data "requestTimestamp") ∧
    ContextualizationJob.error_message self' = dict_get data "errorMessage" ∧
    ContextualizationJob._result self'
      = Some (filter (λ kv, kv.1 ∉ ContextualizationJob.self_COMMON_FIELDS
                                     (ContextualizationJob.__class__ self)) data).
Proof.
  intros H. unfold ContextualizationJob.poll.
  rewrite (dict_getitem_Some _ _ _ H). cbn. eexists. repeat split.
Qed.

(** What one poll assigns on an [EntityMatchingModel], and what it keeps. *)
Lemma model_poll_fields (self : EntityMatchingModel.t) (data : response)
    (st : value) :
  data !! "status" = Some st →
  ∃ self',
    EntityMatchingModel.poll self data = Ok self' ∧
    EntityMatchingModel.id self' = EntityMatchingModel.id self ∧
    EntityMatchingModel.status self' = st ∧
    EntityMatchingModel.status_timestamp self' = dict_get data "statusTimestamp" ∧
    EntityMatchingModel.start_timestamp self' = dict_get data "startTimestamp" ∧
    EntityMatchingModel.request_timestamp self'
      = py_or (EntityMatchingModel.request_timestamp self)
              (dict_get data "requestTimestamp") ∧
    EntityMatchingModel.error_message self' = dict_get data "errorMessage".
Proof.
  intros H. unfold EntityMatchingModel.poll.
  rewrite (dict_getitem_Some _ _ _ H). cbn. eexists. repeat split.
Qed.

(** A poll that omits the two timestamps resets them: after a first poll
    carrying [startTimestamp = 5] and [statusTimestamp = 6], a second poll
    with only a status leaves both fields [None], on a job and on a model. *)
Lemma update_status_resets_timestamps :
  let script := [Samples.running_at_5; Samples.running_bare] in
  (let '(_, j1, net1) := ContextualizationJob.update_status Samples.job script in
   let '(_, j2, _) := ContextualizationJob.update_status j1 net1 in
   ContextualizationJob.start_timestamp j1 = VInt 5 ∧
   ContextualizationJob.status_timestamp j1 = VInt 6 ∧
   ContextualizationJob.start_timestamp j2 = VNone ∧
   ContextualizationJob.status_timestamp j2 = VNone) ∧
  (let '(_, m1, net1) := EntityMatchingModel.update_status Samples.model script in
   let '(_, m2, _) := EntityMatchingModel.update_status m1 net1 in
   EntityMatchingModel.start_timestamp m1 = VInt 5 ∧
   EntityMatchingModel.status_timestamp m1 = VInt 6 ∧
   EntityMatchingModel.start_timestamp m2 = VNone ∧
   EntityMatchingModel.status_timestamp m2 = VNone).
Proof. vm_compute. repeat split. Qed.

(** C1 (amended). An [update_status] whose poll response carries a status
    sets [status_timestamp] and [start_timestamp] to what that response holds
    under [statusTimestamp] and [startTimestamp], [None] when the key is
    omitted, whatever the handle held before; [request_timestamp] alone is
    kept once it holds a true value, and is otherwise taken from the
    response. This holds for [ContextualizationJob] and for
    [EntityMatchingModel]. *)
Theorem update_status_overwrites_timestamps
    (j : ContextualizationJob.t) (m : EntityMatchingModel.t)
    (data : response) (net : list response) (st : value)
    (Hstatus : data !! "status" = Some st) :
  (∃ j',
     ContextualizationJob.update_status j (data :: net) = (Ok st, j', net) ∧
     ContextualizationJob.status_timestamp j' = dict_get data "statusTimestamp" ∧
     ContextualizationJob.start_timestamp j' = dict_get data "startTimestamp" ∧
     ContextualizationJob.request_timestamp j'
       = (if truthy (ContextualizationJob.request_timestamp j)
          then ContextualizationJob.request_timestamp j
          else dict_get data "requestTimestamp")) ∧
  (∃ m',
     EntityMatchingModel.update_status m (data :: net) = (Ok st, m', net) ∧
     EntityMatchingModel.status_timestamp m' = dict_get data "statusTimestamp" ∧
     EntityMatchingModel.start_timestamp m' = dict_get data "startTimestamp" ∧
     EntityMatchingModel.request_timestamp m'
       = (if truthy (EntityMatchingModel.request_timestamp m)
          then EntityMatchingModel.request_timestamp m
          else dict_get data "requestTimestamp")).
Proof.
  split.
  - destruct (job_poll_fields j data st Hstatus)
      as (j' & Hp & _ & _ & Hst & Hsts & Hstart & Hreq & _).
    exists j'. unfold ContextualizationJob.update_status.
    rewrite Hp, Hst. auto.
  - destruct (model_poll_fields m data st Hstatus)
      as (m' & Hp & _ & Hst & Hsts & Hstart & Hreq & _).
    exists m'. unfold EntityMatchingModel.update_status.
    rewrite Hp, Hst. auto.
Qed.

Lemma update_status_overwrites_timestamps_witness :
  (∃ j',
     ContextualizationJob.update_status Samples.job [Samples.running_bare]
       = (Ok (VStr "Running"), j', []) ∧
     ContextualizationJob.status_timestamp j' = VNone ∧
     ContextualizationJob.start_timestamp j' = VNone ∧
     ContextualizationJob.request_timestamp j' = VNone) ∧
  (∃ m',
     EntityMatchingModel.update_status Samples.model [Samples.running_bare]
       = (Ok (VStr "Running"), m', []) ∧
     EntityMatchingModel.status_timestamp m' = VNone ∧
     EntityMatchingModel.start_timestamp m' = VNone ∧
     EntityMatchingModel.request_timestamp m' = VNone).
Proof.
  exact (update_status_overwrites_timestamps Samples.job Samples.model
           Samples.running_bare [] (VStr "Running") eq_refl).
Defined.

(** [request_timestamp] is the one field that does not regress: once true,
    no poll changes it. *)
Lemma request_timestamp_kept (j j' : ContextualizationJob.t) (data : response) :
  truthy (ContextualizationJob.request_timestamp j) = true →
  ContextualizationJob.poll j data = Ok j' →
  ContextualizationJob.request_timestamp j' = ContextualizationJob.request_timestamp j.
Proof.
  intros Ht Hp. unfold ContextualizationJob.poll in Hp.
  destruct (dict_getitem data "status"); cbn in Hp; try discriminate.
  injection Hp as <-. cbn. unfold py_or. by rewrite Ht.
Qed.

(** ** Job handles: the cached result payload *)

Lemma pipeline_run_common_fields_empty :
  ContextualizationJob.EntityMatchingPipelineRun_COMMON_FIELDS = ∅.
Proof. reflexivity. Qed.

(** X1. On a plain [ContextualizationJob] the payload cached by a poll holds
    exactly the response fields outside the six common ones. *)
Lemma job_result_excludes_common_fields (j : ContextualizationJob.t)
    (data : response) (net : list response) (st : value) :
  ContextualizationJob.__class__ j = ContextualizationJob.cls_ContextualizationJob →
  data !! "status" = Some st →
  ∃ j' payload,
    ContextualizationJob.update_status j (data :: net) = (Ok st, j', net) ∧
    ContextualizationJob._result j' = Some payload ∧
    ∀ k v, payload !! k = Some v ↔
           data !! k = Some v ∧
           k ∉ ["status"; "jobId"; "errorMessage"; "requestTimestamp";
                "startTimestamp"; "statusTimestamp"].
Proof.
  intros Hc H.
  destruct (job_poll_fields j data st H)
    as (j' & Hp & _ & _ & Hst & _ & _ & _ & _ & Hres).
  exists j'. eexists. unfold ContextualizationJob.update_status.
  rewrite Hp, Hst. split; [reflexivity |]. split; [exact Hres |].
  intros k v. rewrite map_lookup_filter_Some, Hc. cbn.
  unfold ContextualizationJob._COMMON_FIELDS. set_solver.
Qed.

(** C2 (the code at the failing input). On an [EntityMatchingPipelineRun] the
    set of excluded fields is empty, and a poll answered with
    [{"status": "Completed", "jobId": 7, "items": [1]}] caches the whole
    response, [status] and [jobId] included. *)
Theorem pipeline_run_result_keeps_common_fields :
  let '(_, run, _) :=
    ContextualizationJob.update_status Samples.pipeline_run
                                       [Samples.completed_items] in
  ContextualizationJob._result run = Some Samples.completed_items ∧
  Samples.completed_items !! "status" = Some (VStr "Completed") ∧
  Samples.completed_items !! "jobId" = Some (VInt 7).
Proof. vm_compute. repeat split. Qed.

(** ** Job handles: [wait_for_completion] *)

(** The recursion is the loop of the source: one [update_status], then the
    test on the new status. *)
Lemma job_wait_for_completion_unfold (self : ContextualizationJob.t)
    (net : list response) :
  ContextualizationJob.wait_for_completion self net =
  match ContextualizationJob.update_status self net with
  | (Ok _, self', net') =>
      if negb (in_strs (ContextualizationJob.status self') ["Queued"; "Running"])
      then (ContextualizationJob.raise_if_failed self', self', net')
      else ContextualizationJob.wait_for_completion self' net'
  | other => (match other.1.1 with Raise e => Raise e | _ => Pending end,
              other.1.2, other.2)
  end.
Proof.
  destruct net as [| data net']; [reflexivity |]. cbn.
  destruct (ContextualizationJob.poll self data); reflexivity.
Qed.

Lemma model_wait_for_completion_unfold (self : EntityMatchingModel.t)
    (net : list response) :
  EntityMatchingModel.wait_for_completion self net =
  match EntityMatchingModel.update_status self net with
  | (Ok _, self', net') =>
      if negb (in_strs (EntityMatchingModel.status self') ["Queued"; "Running"])
      then (EntityMatchingModel.raise_if_failed self', self', net')
      else EntityMatchingModel.wait_for_completion self' net'
  | other => (match other.1.1 with Raise e => Raise e | _ => Pending end,
              other.1.2, other.2)
  end.
Proof.
  destruct net as [| data net']; [reflexivity |]. cbn.
  destruct (EntityMatchingModel.poll self data); reflexivity.
Qed.

(** After any number of non-terminal polls, the first terminal poll ends the
    wait: the handle then holds that poll's status and error message, and
    the outcome is decided by [raise_if_failed]. *)
Lemma job_wait_reaches_terminal (pre : list response) :
  ∀ (self : ContextualizationJob.t) (last : response) (rest : list response)
    (st : value),
    Forall keeps_waiting pre →
    last !! "status" = Some st →
    in_strs st ["Queued"; "Running"] = false →
    ∃ self',
      ContextualizationJob.wait_for_completion self (pre ++ last :: rest)
        = (ContextualizationJob.raise_if_failed self', self', rest) ∧
      ContextualizationJob.__class__ self' = ContextualizationJob.__class__ self ∧
      ContextualizationJob.job_id self' = ContextualizationJob.job_id self ∧
      ContextualizationJob.status self' = st ∧
      ContextualizationJob.error_message self' = dict_get last "errorMessage" ∧
      ContextualizationJob._result self'
        = Some (filter (λ kv, kv.1 ∉ ContextualizationJob.self_COMMON_FIELDS
                                       (ContextualizationJob.__class__ self)) last).
Proof.
  induction pre as [| data pre IH]; intros self last rest st Hpre Hlast Hterm.
  - destruct (job_poll_fields self last st Hlast)
      as (self' & Hp & Hc & Hid & Hst & _ & _ & _ & Herr & Hres).
    exists self'. cbn [app]. rewrite job_wait_for_completion_unfold.
    unfold ContextualizationJob.update_status. rewrite Hp, Hst, Hterm. cbn [negb]. repeat split; auto.
  - apply Forall_cons in Hpre as [(st0 & Hst0 & Hwait) Hpre].
    destruct (job_poll_fields self data st0 Hst0)
      as (self0 & Hp & Hc & Hid & Hst & _).
    destruct (IH self0 last rest st Hpre Hlast Hterm)
      as (self' & Hw & Hc' & Hid' & Hrest).
    exists self'. rewrite <- app_comm_cons, job_wait_for_completion_unfold.
    unfold ContextualizationJob.update_status. rewrite Hp, Hst, Hwait.
    cbn [negb]. rewrite Hw, Hc', Hid', Hc, Hid. rewrite Hc in Hrest.
    repeat split; tauto.
Qed.

Lemma model_wait_reaches_terminal (pre : list response) :
  ∀ (self : EntityMatchingModel.t) (last : response) (rest : list response)
    (st : value),
    Forall keeps_waiting pre →
    last !! "status" = Some st →
    in_strs st ["Queued"; "Running"] = false →
    ∃ self',
      EntityMatchingModel.wait_for_completion self (pre ++ last :: rest)
        = (EntityMatchingModel.raise_if_failed self', self', rest) ∧
      EntityMatchingModel.id self' = EntityMatchingModel.id self ∧
      EntityMatchingModel.status self' = st ∧
      EntityMatchingModel.error_message self' = dict_get last "errorMessage".
Proof.
  induction pre as [| data pre IH]; intros self last rest st Hpre Hlast Hterm.
  - destruct (model_poll_fields self last st Hlast)
      as (self' & Hp & Hid & Hst & _ & _ & _ & Herr).
    exists self'. cbn [app]. rewrite model_wait_for_completion_unfold.
    unfold EntityMatchingModel.update_status. rewrite Hp, Hst, Hterm. cbn [negb]. repeat split; auto.
  - apply Forall_cons in Hpre as [(st0 & Hst0 & Hwait) Hpre].
    destruct (model_poll_fields self data st0 Hst0)
      as (self0 & Hp & Hid & Hst & _).
    destruct (IH self0 last rest st Hpre Hlast Hterm)
      as (self' & Hw & Hid' & Hrest).
    exists self'. rewrite <- app_comm_cons, model_wait_for_completion_unfold.
    unfold EntityMatchingModel.update_status. rewrite Hp, Hst, Hwait.
    cbn [negb]. rewrite Hw, Hid', Hid. repeat split; tauto.
Qed.

Lemma keeps_waiting_status (data : response) (s : string) :
  data !! "status" = Some (VStr s) → s = "Queued" ∨ s = "Running" →
  keeps_waiting data.
Proof.
  intros H [-> | ->]; eexists; (split; [exact H | reflexivity]).
Qed.

(** C3. Polls reporting Queued, Running, Failed make [wait_for_completion]
    raise [ModelFailedException] with the handle's class name, its job id
    and the [errorMessage] of the last poll; polls reporting Queued and then
    a status that is neither Queued, Running nor Failed (Completed, say) make
    it return normally. Both hold for [ContextualizationJob] (and its
    subclass) and for [EntityMatchingModel]; the polls after the terminal
    one are not consumed. *)
Theorem wait_for_completion_terminal_contract
    (j : ContextualizationJob.t) (m : EntityMatchingModel.t)
    (q r f c : response) (rest : list response) (st : value)
    (Hq : q !! "status" = Some (VStr "Queued"))
    (Hr : r !! "status" = Some (VStr "Running"))
    (Hf : f !! "status" = Some (VStr "Failed"))
    (Hc : c !! "status" = Some st)
    (Hterminal : in_strs st ["Queued"; "Running"] = false)
    (Hnot_failed : eq_str st "Failed" = false) :
  (∃ j',
     ContextualizationJob.wait_for_completion j (q :: r :: f :: rest)
       = (Raise (ModelFailedException
                   (ContextualizationJob.class_name (ContextualizationJob.__class__ j))
                   (ContextualizationJob.job_id j)
                   (dict_get f "errorMessage")), j', rest)) ∧
  (∃ j',
     ContextualizationJob.wait_for_completion j (q :: c :: rest)
       = (Ok tt, j', rest) ∧ ContextualizationJob.status j' = st) ∧
  (∃ m',
     EntityMatchingModel.wait_for_completion m (q :: r :: f :: rest)
       = (Raise (ModelFailedException "EntityMatchingModel"
                   (EntityMatchingModel.id m)
                   (dict_get f "errorMessage")), m', rest)) ∧
  (∃ m',
     EntityMatchingModel.wait_for_completion m (q :: c :: rest)
       = (Ok tt, m', rest) ∧ EntityMatchingModel.status m' = st).
Proof.
  pose proof (keeps_waiting_status q _ Hq (or_introl eq_refl)) as Kq.
  pose proof (keeps_waiting_status r _ Hr (or_intror eq_refl)) as Kr.
  repeat split.
  - destruct (job_wait_reaches_terminal [q; r] j f rest (VStr "Failed"))
      as (j' & Hw & Hcls & Hid & Hst & Herr & _); auto.
    exists j'. cbn [app] in Hw. rewrite Hw.
    unfold ContextualizationJob.raise_if_failed.
    by rewrite Hst, Hcls, Hid, Herr.
  - destruct (job_wait_reaches_terminal [q] j c rest st)
      as (j' & Hw & _ & _ & Hst & _); auto.
    exists j'. cbn [app] in Hw. rewrite Hw.
    unfold ContextualizationJob.raise_if_failed.
    by rewrite Hst, Hnot_failed.
  - destruct (model_wait_reaches_terminal [q; r] m f rest (VStr "Failed"))
      as (m' & Hw & Hid & Hst & Herr); auto.
    exists m'. cbn [app] in Hw. rewrite Hw.
    unfold EntityMatchingModel.raise_if_failed.
    by rewrite Hst, Hid, Herr.
  - destruct (model_wait_reaches_terminal [q] m c rest st)
      as (m' & Hw & _ & Hst & _); auto.
    exists m'. cbn [app] in Hw. rewrite Hw.
    unfold EntityMatchingModel.raise_if_failed.
    by rewrite Hst, Hnot_failed.
Qed.

Lemma wait_for_completion_terminal_contract_witness :
  (∃ j',
     ContextualizationJob.wait_for_completion Samples.job
       [Samples.queued; Samples.running; Samples.failed]
       = (Raise (ModelFailedException "ContextualizationJob" (VInt 7)
                   (VStr "out of memory")), j', [])) ∧
  (∃ j',
     ContextualizationJob.wait_for_completion Samples.job
       [Samples.queued; Samples.completed_items]
       = (Ok tt, j', []) ∧
     ContextualizationJob.status j' = VStr "Completed") ∧
  (∃ m',
     EntityMatchingModel.wait_for_completion Samples.model
       [Samples.queued; Samples.running; Samples.failed]
       = (Raise (ModelFailedException "EntityMatchingModel" (VInt 7)
                   (VStr "out of memory")), m', [])) ∧
  (∃ m',
     EntityMatchingModel.wait_for_completion Samples.model
       [Samples.queued; Samples.completed_items]
       = (Ok tt, m', []) ∧
     EntityMatchingModel.status m' = VStr "Completed").
Proof.
  exact (wait_for_completion_terminal_contract Samples.job Samples.model
           Samples.queued Samples.running Samples.failed
           Samples.completed_items [] (VStr "Completed")
           eq_refl eq_refl eq_refl eq_refl eq_refl eq_refl).
Defined.

(** A poll without a status raises [KeyError] and leaves the handle as it
    was; an exhausted script leaves the wait pending. *)
Lemma job_wait_for_completion_no_status (self : ContextualizationJob.t)
    (data : response) (net : list response) :
  data !! "status" = None →
  ContextualizationJob.wait_for_completion self (data :: net)
    = (Raise (KeyError "status"), self, net).
Proof.
  intros H. cbn. unfold ContextualizationJob.poll, dict_getitem.
  by rewrite H.
Qed.

(** ** Job handles: the [result] property *)

(** A first access that resolves with an empty payload is followed by a
    second access that polls again and may return something else: with the
    script [Completed (no payload); Completed with items], the first access
    consumes one poll and returns [{}], the second consumes the other poll
    and returns the items. *)
Lemma result_empty_payload_polls_again :
  let script := [Samples.completed_bare; Samples.completed_items] in
  let '(first, j1, net1) := ContextualizationJob.result Samples.job script in
  let '(second, j2, net2) := ContextualizationJob.result j1 net1 in
  first = Ok (Some ∅) ∧ net1 = [Samples.completed_items] ∧
  second = Ok (Some {[ "items" := VList [VInt 1] ]}) ∧ net2 = [] ∧
  second ≠ first ∧ net2 ≠ net1.
Proof. vm_compute. repeat split; discriminate. Qed.

Lemma result_returns_cache (self self' : ContextualizationJob.t)
    (net net' : list response) (payload : option (gmap string value)) :
  ContextualizationJob.result self net = (Ok payload, self', net') →
  ContextualizationJob._result self' = payload.
Proof.
  unfold ContextualizationJob.result.
  destruct (ContextualizationJob.not_result _).
  - destruct (ContextualizationJob.wait_for_completion self net)
      as [[[u | e |] s] n]; intros H; inversion H; reflexivity.
  - intros H; inversion H; reflexivity.
Qed.

(** C4 (amended). Once [result] has resolved on a handle with a non-empty
    payload, a second access returns the same payload, consumes no poll and
    leaves the handle as it is. *)
Theorem result_cached_when_nonempty
    (self self' : ContextualizationJob.t) (net net' : list response)
    (payload : option (gmap string value))
    (Hfirst : ContextualizationJob.result self net = (Ok payload, self', net'))
    (Hnonempty : ContextualizationJob.not_result payload = false) :
  ContextualizationJob.result self' net' = (Ok payload, self', net').
Proof.
  pose proof (result_returns_cache _ _ _ _ _ Hfirst) as Hcache.
  unfold ContextualizationJob.result. rewrite Hcache, Hnonempty. reflexivity.
Qed.

Lemma result_cached_when_nonempty_witness :
  let payload : option (gmap string value) :=
    Some {[ "items" := VList [VInt 1] ]} in
  ∃ j',
    ContextualizationJob.result Samples.job
      [Samples.queued; Samples.completed_items; Samples.failed]
      = (Ok payload, j', [Samples.failed]) ∧
    ContextualizationJob.result j' [Samples.failed]
      = (Ok payload, j', [Samples.failed]).
Proof.
  eexists. split; [vm_compute; reflexivity |].
  apply (result_cached_when_nonempty Samples.job _
           [Samples.queued; Samples.completed_items; Samples.failed]);
    vm_compute; reflexivity.
Defined.

(** X10. On a handle with nothing cached, the first access of [result]
    resolves as soon as the script reaches a terminal status other than
    Failed, with the last response minus the excluded fields as payload;
    the polls after it are not consumed. *)
Lemma result_resolves (pre : list response) (self : ContextualizationJob.t)
    (last : response) (rest : list response) (st : value) :
  ContextualizationJob._result self = None →
  Forall keeps_waiting pre →
  last !! "status" = Some st →
  in_strs st ["Queued"; "Running"] = false →
  eq_str st "Failed" = false →
  ∃ self',
    ContextualizationJob.result self (pre ++ last :: rest)
      = (Ok (Some (filter (λ kv, kv.1 ∉ ContextualizationJob.self_COMMON_FIELDS
                                       (ContextualizationJob.__class__ self)) last)),
         self', rest).
Proof.
  intros Hnone Hpre Hlast Hterm Hnf.
  destruct (job_wait_reaches_terminal pre self last rest st Hpre Hlast Hterm)
    as (self' & Hw & _ & _ & Hst & _ & Hres).
  exists self'. unfold ContextualizationJob.result. rewrite Hnone. cbn [ContextualizationJob.not_result].
  rewrite Hw. unfold ContextualizationJob.raise_if_failed.
  rewrite Hst, Hnf, Hres. reflexivity.
Qed.

(** ** [EntityMatchingModel.dump_entities] *)

(** An entity given as a plain dict is not reduced: [score], neither a
    string nor the id, is still there after serialization. *)
Lemma dump_entities_plain_dict_unfiltered :
  EntityMatchingModel.dump_entities
    (Some [EntityMatchingModel.Plain (VDict Samples.pump)])
    = Some [VDict Samples.pump] ∧
  Samples.pump !! "score" = Some (VFloat 9 (-1)) ∧
  isinstance_str (VFloat 9 (-1)) = false.
Proof. repeat split. Qed.

Lemma kept_spec (k : string) (v : value) :
  EntityMatchingModel.kept (k, v) = true ↔ isinstance_str v = true ∨ k = "id".
Proof.
  unfold EntityMatchingModel.kept. cbn.
  rewrite orb_true_iff, String.eqb_eq. reflexivity.
Qed.

Lemma dump_entity_resource (dump : gmap string value) (k : string) (v : value) :
  ∃ r, EntityMatchingModel.dump_entity (EntityMatchingModel.Resource dump)
         = VDict r ∧
       (r !! k = Some v ↔
        dump !! k = Some v ∧ (isinstance_str v = true ∨ k = "id")).
Proof.
  eexists. split; [reflexivity |].
  rewrite map_lookup_filter_Some. cbn. by rewrite kept_spec.
Qed.

(** C7 (amended). For a non-empty list of entities, [dump_entities] returns
    one serialized entity per input, in order: an entity that is a
    [CogniteResource] is reduced to the fields of its camel-case dump that
    are string-valued or named [id], every other field being dropped; an
    entity that is not a [CogniteResource] (a plain dict) is passed through
    unchanged. *)
Theorem dump_entities_reduces_resources
    (entities : list EntityMatchingModel.entity)
    (Hnonempty : entities ≠ []) :
  ∃ out,
    EntityMatchingModel.dump_entities (Some entities) = Some out ∧
    length out = length entities ∧
    ∀ (i : nat) (e : EntityMatchingModel.entity),
      entities !! i = Some e →
      match e with
      | EntityMatchingModel.Resource dump =>
          ∃ r, out !! i = Some (VDict r) ∧
               ∀ k v, r !! k = Some v ↔
                      dump !! k = Some v ∧
                      (isinstance_str v = true ∨ k = "id")
      | EntityMatchingModel.Plain v => out !! i = Some v
      end.
Proof.
  exists (EntityMatchingModel.dump_entity <$> entities).
  split; [by destruct entities |]. split; [apply length_fmap |].
  intros i e Hi. rewrite list_lookup_fmap, Hi. cbn.
  destruct e as [dump | v]; [| reflexivity].
  eexists. split; [reflexivity |]. intros k v.
  rewrite map_lookup_filter_Some. cbn. by rewrite kept_spec.
Qed.

Lemma dump_entities_reduces_resources_witness :
  ∃ out,
    EntityMatchingModel.dump_entities
      (Some [EntityMatchingModel.Resource Samples.pump]) = Some out ∧
    length out = 1%nat ∧
    ∀ (i : nat) (e : EntityMatchingModel.entity),
      [EntityMatchingModel.Resource Samples.pump] !! i = Some e →
      match e with
      | EntityMatchingModel.Resource dump =>
          ∃ r, out !! i = Some (VDict r) ∧
               ∀ k v, r !! k = Some v ↔
                      dump !! k = Some v ∧
                      (isinstance_str v = true ∨ k = "id")
      | EntityMatchingModel.Plain v => out !! i = Some v
      end.
Proof.
  apply (dump_entities_reduces_resources
           [EntityMatchingModel.Resource Samples.pump]).
  discriminate.
Defined.

(** The example of the specification, on a resource:
    [{id: 7, name: "pump", score: 0.9}] becomes [{id: 7, name: "pump"}]. *)
Lemma dump_entities_pump :
  EntityMatchingModel.dump_entities
    (Some [EntityMatchingModel.Resource Samples.pump])
    = Some [VDict {[ "id" := VInt 7; "name" := VStr "pump" ]}].
Proof. vm_compute. reflexivity. Qed.

Lemma dump_entities_nothing :
  EntityMatchingModel.dump_entities None = None ∧
  EntityMatchingModel.dump_entities (Some []) = None.
Proof. split; reflexivity. Qed.

(** ** [EntityMatchingModel.refit] *)

(** [refit] waits on the receiver, and the wait writes the polled status
    into it: a model that was Queued before the call is Completed after
    it, while the returned reference is a new one. *)
Lemma refit_updates_receiver_status :
  let '(r, w') :=
    EntityMatchingModel.refit 0 [VTuple [VInt 101; VStr "ext-5"]]
                              Samples.refit_world in
  r = Ok 1%nat ∧
  EntityMatchingModel.status
    <$> (EntityMatchingModel.heap Samples.refit_world !! 0%nat)
    = Some (VStr "Queued") ∧
  EntityMatchingModel.status <$> (EntityMatchingModel.heap w' !! 0%nat)
    = Some (VStr "Completed") ∧
  EntityMatchingModel.status_timestamp
    <$> (EntityMatchingModel.heap w' !! 0%nat)
    = Some (VInt 9).
Proof. vm_compute. repeat split. Qed.

Lemma model_poll_same_model (m m' : EntityMatchingModel.t) (data : response) :
  EntityMatchingModel.poll m data = Ok m' → EntityMatchingModel.same_model m m'.
Proof.
  unfold EntityMatchingModel.poll.
  destruct (dict_getitem data "status"); cbn; intros H; try discriminate.
  injection H as <-. repeat split.
Qed.

Lemma same_model_refl (m : EntityMatchingModel.t) :
  EntityMatchingModel.same_model m m.
Proof. repeat split. Qed.

Lemma same_model_trans (m1 m2 m3 : EntityMatchingModel.t) :
  EntityMatchingModel.same_model m1 m2 → EntityMatchingModel.same_model m2 m3 →
  EntityMatchingModel.same_model m1 m3.
Proof.
  unfold EntityMatchingModel.same_model. intros H1 H2.
  destruct_and!. repeat split; congruence.
Qed.

(** However the wait ends, it has only touched the status attributes. *)
Lemma model_wait_same_model (net : list response) :
  ∀ (m m' : EntityMatchingModel.t) (o : outcome unit) (net' : list response),
    EntityMatchingModel.wait_for_completion m net = (o, m', net') →
    EntityMatchingModel.same_model m m'.
Proof.
  induction net as [| data net IH]; intros m m' o net' H; cbn in H.
  - injection H as _ <- _. apply same_model_refl.
  - destruct (EntityMatchingModel.poll m data) as [m0 | e |] eqn:Hp.
    + pose proof (model_poll_same_model _ _ _ Hp) as H0.
      destruct (negb _).
      * injection H as _ <- _. exact H0.
      * eapply same_model_trans; [exact H0 | eapply IH; exact H].
    + injection H as _ <- _. apply same_model_refl.
    + injection H as _ <- _. apply same_model_refl.
Qed.

(** What the polls of a wait leave in the status attributes of a model:
    the status, both timestamps and the error message of the terminal poll,
    and as [request_timestamp] the first true value among the one it held
    and the [requestTimestamp] of the polls, in order (that of the last
    poll when none is true). *)
Lemma model_wait_status_fields (pre : list response) :
  ∀ (self : EntityMatchingModel.t) (last : response) (rest : list response)
    (st : value),
    Forall keeps_waiting pre →
    last !! "status" = Some st →
    in_strs st ["Queued"; "Running"] = false →
    ∃ self',
      EntityMatchingModel.wait_for_completion self (pre ++ last :: rest)
        = (EntityMatchingModel.raise_if_failed self', self', rest) ∧
      EntityMatchingModel.id self' = EntityMatchingModel.id self ∧
      EntityMatchingModel.status self' = st ∧
      EntityMatchingModel.status_timestamp self'
        = dict_get last "statusTimestamp" ∧
      EntityMatchingModel.start_timestamp self'
        = dict_get last "startTimestamp" ∧
      EntityMatchingModel.error_message self' = dict_get last "errorMessage" ∧
      EntityMatchingModel.request_timestamp self'
        = foldl (λ acc data, py_or acc (dict_get data "requestTimestamp"))
                (EntityMatchingModel.request_timestamp self) (pre ++ [last]).
Proof.
  induction pre as [| data pre IH]; intros self last rest st Hpre Hlast Hterm.
  - destruct (model_poll_fields self last st Hlast)
      as (self' & Hp & Hid & Hst & Hsts & Hstart & Hreq & Herr).
    exists self'. cbn [app]. rewrite model_wait_for_completion_unfold.
    unfold EntityMatchingModel.update_status. rewrite Hp, Hst, Hterm.
    cbn [negb foldl]. repeat split; auto.
  - apply Forall_cons in Hpre as [(st0 & Hst0 & Hwait) Hpre].
    destruct (model_poll_fields self data st0 Hst0)
      as (self0 & Hp & Hid & Hst & _ & _ & Hreq & _).
    destruct (IH self0 last rest st Hpre Hlast Hterm)
      as (self' & Hw & Hid' & Hrest).
    exists self'. rewrite <- !app_comm_cons, model_wait_for_completion_unfold.
    unfold EntityMatchingModel.update_status. rewrite Hp, Hst, Hwait.
    cbn [negb foldl]. rewrite Hw, Hid', Hid, <- Hreq. repeat split; tauto.
Qed.

(** C8 (amended). When the true matches all normalize and the receiver's
    polls reach a terminal status other than Failed, [refit] returns a
    reference that was not in use before (so it is not the receiver), bound
    to the model that [_load] builds from the server's answer to the refit
    request. The receiver keeps its id, classifier, feature type, match
    fields, model type, name, description and external id; its status,
    status timestamp, start timestamp and error message are overwritten
    with those of the last poll, and its request timestamp is the first
    true value among the one it held and those of the polls (that of the
    last poll when none is true). No other object is touched. *)
Theorem refit_returns_new_model
    (w : EntityMatchingModel.world) (self : nat) (m : EntityMatchingModel.t)
    (true_matches true_matches' : list value)
    (pre : list response) (last : response) (rest : list response) (st : value)
    (Hself : EntityMatchingModel.heap w !! self = Some m)
    (Hconv : mapM convert_true_match true_matches = Ok true_matches')
    (Hpolls : EntityMatchingModel.polls w = (pre ++ last :: rest)%list)
    (Hpre : Forall keeps_waiting pre)
    (Hlast : last !! "status" = Some st)
    (Hterminal : in_strs st ["Queued"; "Running"] = false)
    (Hnot_failed : eq_str st "Failed" = false) :
  ∃ (r : nat) (m' : EntityMatchingModel.t) (w' : EntityMatchingModel.world),
    EntityMatchingModel.refit self true_matches w = (Ok r, w') ∧
    (r ∉ dom (EntityMatchingModel.heap w)) ∧ r ≠ self ∧
    EntityMatchingModel.heap w' !! r
      = Some (EntityMatchingModel._load w
                (EntityMatchingModel.post w "/refit"
                   {[ "trueMatches" := VList true_matches';
                      "id" := EntityMatchingModel.id m ]})) ∧
    EntityMatchingModel.heap w' !! self = Some m' ∧
    EntityMatchingModel.same_model m m' ∧
    EntityMatchingModel.status m' = st ∧
    EntityMatchingModel.status_timestamp m' = dict_get last "statusTimestamp" ∧
    EntityMatchingModel.start_timestamp m' = dict_get last "startTimestamp" ∧
    EntityMatchingModel.error_message m' = dict_get last "errorMessage" ∧
    EntityMatchingModel.request_timestamp m'
      = foldl (λ acc data, py_or acc (dict_get data "requestTimestamp"))
              (EntityMatchingModel.request_timestamp m) (pre ++ [last]) ∧
    (∀ a, a ≠ self → a ≠ r →
          EntityMatchingModel.heap w' !! a = EntityMatchingModel.heap w !! a) ∧
    EntityMatchingModel.polls w' = rest.
Proof.
  destruct (model_wait_status_fields pre m last rest st Hpre Hlast Hterminal)
    as (m' & Hw & Hid & Hst & Hsts & Hstart & Herr & Hreq).
  pose proof (model_wait_same_model _ _ _ _ _ Hw) as Hsame.
  assert (Hfresh : fresh (dom (EntityMatchingModel.heap w))
                     ∉ dom (EntityMatchingModel.heap w)) by apply is_fresh.
  assert (Hne : fresh (dom (EntityMatchingModel.heap w)) ≠ self).
  { intros Heq. apply Hfresh. rewrite Heq. apply elem_of_dom. by eexists. }
  exists (fresh (dom (EntityMatchingModel.heap w))), m'. eexists.
  unfold EntityMatchingModel.refit.
  rewrite Hself, Hconv, Hpolls, Hw.
  unfold EntityMatchingModel.raise_if_failed. rewrite Hst, Hnot_failed.
  split; [reflexivity |]. cbn.
  split; [exact Hfresh |]. split; [exact Hne |].
  split; [by rewrite lookup_insert_eq, Hid |].
  split; [by rewrite lookup_insert_ne, lookup_insert_eq |].
  split; [exact Hsame |]. split; [reflexivity |].
  split; [exact Hsts |]. split; [exact Hstart |]. split; [exact Herr |].
  split; [exact Hreq |].
  split; [| reflexivity].
  intros a Ha Hr. by rewrite !lookup_insert_ne.
Qed.

Lemma refit_returns_new_model_witness :
  let last : response :=
    {[ "status" := VStr "Completed"; "statusTimestamp" := VInt 9 ]} in
  ∃ (r : nat) (m' : EntityMatchingModel.t) (w' : EntityMatchingModel.world),
    EntityMatchingModel.refit 0 [VTuple [VInt 101; VStr "ext-5"]]
                              Samples.refit_world = (Ok r, w') ∧
    (r ∉ dom (EntityMatchingModel.heap Samples.refit_world)) ∧ r ≠ 0%nat ∧
    EntityMatchingModel.heap w' !! r
      = Some (EntityMatchingModel._load Samples.refit_world
                (EntityMatchingModel.post Samples.refit_world "/refit"
                   {[ "trueMatches" :=
                        VList [VDict {[ "fromId" := VInt 101;
                                        "toExternalId" := VStr "ext-5" ]}];
                      "id" := EntityMatchingModel.id Samples.model ]})) ∧
    EntityMatchingModel.heap w' !! 0%nat = Some m' ∧
    EntityMatchingModel.same_model Samples.model m' ∧
    EntityMatchingModel.status m' = VStr "Completed" ∧
    EntityMatchingModel.status_timestamp m' = dict_get last "statusTimestamp" ∧
    EntityMatchingModel.start_timestamp m' = dict_get last "startTimestamp" ∧
    EntityMatchingModel.error_message m' = dict_get last "errorMessage" ∧
    EntityMatchingModel.request_timestamp m'
      = foldl (λ acc data, py_or acc (dict_get data "requestTimestamp"))
              (EntityMatchingModel.request_timestamp Samples.model) [last] ∧
    (∀ a, a ≠ 0%nat → a ≠ r →
          EntityMatchingModel.heap w' !! a
          = EntityMatchingModel.heap Samples.refit_world !! a) ∧
    EntityMatchingModel.polls w' = [].
Proof.
  intros last.
  apply (refit_returns_new_model Samples.refit_world 0 Samples.model
           [VTuple [VInt 101; VStr "ext-5"]]
           [VDict {[ "fromId" := VInt 101; "toExternalId" := VStr "ext-5" ]}]
           [] last [] (VStr "Completed")).
  - reflexivity.
  - reflexivity.
  - reflexivity.
  - constructor.
  - reflexivity.
  - reflexivity.
  - reflexivity.
Defined.

(** ** [AssetUpdate]: the guarded structured fields *)

Lemma put_type_append_under (properties version id external_id : value)
    (u : gmap string value) :
  AssetUpdate.put_type properties version id external_id u
  = AssetUpdate.append_under "types" "put"
      (VDict {[ "type" := VDict {[ "id" := id; "externalId" := external_id;
                                  "version" := version ]};
                "properties" := properties ]}) u.
Proof. reflexivity. Qed.

Lemma remove_type_append_under (version id external_id : value)
    (u : gmap string value) :
  AssetUpdate.remove_type version id external_id u
  = AssetUpdate.append_under "types" "remove"
      (VDict {[ "id" := id; "externalId" := external_id;
                "version" := version ]}) u.
Proof. reflexivity. Qed.

Lemma put_label_append_under (external_id : value) (u : gmap string value) :
  AssetUpdate.put_label external_id u
  = AssetUpdate.append_under "labels" "put"
      (VDict {[ "externalId" := external_id ]}) u.
Proof. reflexivity. Qed.

Lemma remove_label_append_under (external_id : value) (u : gmap string value) :
  AssetUpdate.remove_label external_id u
  = AssetUpdate.append_under "labels" "remove"
      (VDict {[ "externalId" := external_id ]}) u.
Proof. reflexivity. Qed.

Lemma append_under_ok (field which : string) (entry : value)
    (u : gmap string value) :
  AssetUpdate.field_ok u field = true →
  which = "put" ∨ which = "remove" →
  AssetUpdate.append_under field which entry u
  = Ok (<[field := VDict (<[which := VList (AssetUpdate.bucket u field which
                                             ++ [entry])%list]>
                           (AssetUpdate.subdict u field))]> u).
Proof.
  intros Hok Hwhich.
  unfold AssetUpdate.append_under, AssetUpdate.setdefault_None,
    AssetUpdate.getitem_dict, AssetUpdate.getitem_list, AssetUpdate.field_ok,
    AssetUpdate.bucket, AssetUpdate.subdict, dict_get, dict_getitem in *.
  destruct (u !! field) as [[| | | | | | | d |] |] eqn:Hu; try discriminate Hok;
    cbn.
  - rewrite lookup_insert_eq. cbn. rewrite lookup_empty. cbn.
    rewrite lookup_insert_eq. cbn. by rewrite !insert_insert_eq.
  - rewrite Hu. cbn.
    apply andb_true_iff in Hok as [Hput Hrem].
    unfold AssetUpdate.bucket_ok in *.
    assert (Hw : match d !! which with
                 | None | Some VNone | Some (VList _) => true
                 | Some _ => false
                 end = true) by (destruct Hwhich as [-> | ->]; assumption).
    destruct (d !! which) as [[| | | | | | l | |] |] eqn:Hd;
      try discriminate Hw; cbn.
    + rewrite lookup_insert_eq. cbn. by rewrite insert_insert_eq.
    + rewrite Hd. cbn. reflexivity.
    + rewrite lookup_insert_eq. cbn. by rewrite insert_insert_eq.
  - rewrite lookup_insert_eq. cbn. rewrite lookup_empty. cbn.
    rewrite lookup_insert_eq. cbn. by rewrite !insert_insert_eq.
Qed.

Lemma bucket_insert_same (u d : gmap string value) (field which : string) :
  AssetUpdate.bucket (<[field := VDict d]> u) field which
  = match d !! which with Some (VList l) => l | _ => [] end.
Proof. unfold AssetUpdate.bucket. by rewrite lookup_insert_eq. Qed.

Lemma bucket_insert_other (u : gmap string value) (v : value)
    (field f which : string) :
  f ≠ field →
  AssetUpdate.bucket (<[field := v]> u) f which = AssetUpdate.bucket u f which.
Proof. intros Hne. unfold AssetUpdate.bucket. by rewrite lookup_insert_ne. Qed.

Lemma field_ok_insert_other (u : gmap string value) (v : value)
    (field f : string) :
  f ≠ field →
  AssetUpdate.field_ok (<[field := v]> u) f = AssetUpdate.field_ok u f.
Proof. intros Hne. unfold AssetUpdate.field_ok. by rewrite lookup_insert_ne. Qed.

Lemma subdict_bucket_ok (u : gmap string value) (field w : string) :
  AssetUpdate.field_ok u field = true → w = "put" ∨ w = "remove" →
  AssetUpdate.bucket_ok (AssetUpdate.subdict u field) w = true.
Proof.
  unfold AssetUpdate.field_ok, AssetUpdate.subdict.
  destruct (u !! field) as [[| | | | | | | d |] |]; intros Hok Hw;
    try discriminate Hok; try reflexivity.
  apply andb_true_iff in Hok as [Hput Hrem]. by destruct Hw as [-> | ->].
Qed.

Lemma field_ok_insert_same (u : gmap string value) (field which : string)
    (l : list value) :
  AssetUpdate.field_ok u field = true → which = "put" ∨ which = "remove" →
  AssetUpdate.field_ok
    (<[field := VDict (<[which := VList l]> (AssetUpdate.subdict u field))]> u)
    field = true.
Proof.
  intros Hok Hw. unfold AssetUpdate.field_ok. rewrite lookup_insert_eq.
  pose proof (subdict_bucket_ok u field "put" Hok (or_introl eq_refl)) as Hp.
  pose proof (subdict_bucket_ok u field "remove" Hok (or_intror eq_refl)) as Hr.
  unfold AssetUpdate.bucket_ok in *.
  destruct Hw as [-> | ->].
  - rewrite lookup_insert_eq, lookup_insert_ne by done. exact Hr.
  - rewrite lookup_insert_eq, lookup_insert_ne by done. by rewrite Hp.
Qed.

(** On a well-formed update object each builder records its entry in its
    own bucket and nowhere else. *)
Lemma append_under_records (field which : string) (entry : value)
    (u : gmap string value) :
  AssetUpdate.well_formed u = true →
  field = "types" ∨ field = "labels" →
  which = "put" ∨ which = "remove" →
  AssetUpdate.records_under (AssetUpdate.append_under field which entry)
                            field which entry u.
Proof.
  intros Hwf Hfield Hwhich.
  apply andb_true_iff in Hwf as [Htypes Hlabels].
  assert (Hok : AssetUpdate.field_ok u field = true)
    by (destruct Hfield as [-> | ->]; assumption).
  eexists. split; [by apply append_under_ok |]. split; [| split].
  - rewrite bucket_insert_same. by rewrite lookup_insert_eq.
  - intros f w Hne. destruct (decide (f = field)) as [-> | Hf].
    + assert (Hw : w ≠ which) by congruence.
      rewrite bucket_insert_same, lookup_insert_ne by done.
      unfold AssetUpdate.bucket, AssetUpdate.subdict.
      destruct (u !! field) as [[| | | | | | | d |] |]; reflexivity.
    + by apply bucket_insert_other.
  - unfold AssetUpdate.well_formed. apply andb_true_iff.
    destruct Hfield as [-> | ->].
    + split; [by apply field_ok_insert_same |].
      by rewrite field_ok_insert_other.
    + split; [by rewrite field_ok_insert_other |].
      by apply field_ok_insert_same.
Qed.

Lemma well_formed_empty : AssetUpdate.well_formed ∅ = true.
Proof. reflexivity. Qed.

(** C9. On every (well-formed) [AssetUpdate], reading the [types] or the
    [labels] property raises the exception that points to the dedicated
    operations; [put_type] records its entry under [types.put],
    [remove_type] under [types.remove], [put_label] under [labels.put] and
    [remove_label] under [labels.remove], each leaving the other buckets
    untouched. *)
Theorem structured_updates_guarded
    (u : gmap string value)
    (properties version id external_id : value)
    (Hwf : AssetUpdate.well_formed u = true) :
  AssetUpdate.types u
    = Raise (Exception
        "Use the put_type and remove_type functions to handle type updates") ∧
  AssetUpdate.labels u
    = Raise (Exception
        "Use the put_label and remove_label functions to handle label updates") ∧
  AssetUpdate.records_under
    (AssetUpdate.put_type properties version id external_id) "types" "put"
    (VDict {[ "type" := VDict {[ "id" := id; "externalId" := external_id;
                                "version" := version ]};
              "properties" := properties ]}) u ∧
  AssetUpdate.records_under
    (AssetUpdate.remove_type version id external_id) "types" "remove"
    (VDict {[ "id" := id; "externalId" := external_id;
              "version" := version ]}) u ∧
  AssetUpdate.records_under
    (AssetUpdate.put_label external_id) "labels" "put"
    (VDict {[ "externalId" := external_id ]}) u ∧
  AssetUpdate.records_under
    (AssetUpdate.remove_label external_id) "labels" "remove"
    (VDict {[ "externalId" := external_id ]}) u.
Proof.
  split; [reflexivity |]. split; [reflexivity |].
  repeat split.
  - exact (append_under_records "types" "put" _ u Hwf
             (or_introl eq_refl) (or_introl eq_refl)).
  - exact (append_under_records "types" "remove" _ u Hwf
             (or_introl eq_refl) (or_intror eq_refl)).
  - exact (append_under_records "labels" "put" _ u Hwf
             (or_intror eq_refl) (or_introl eq_refl)).
  - exact (append_under_records "labels" "remove" _ u Hwf
             (or_intror eq_refl) (or_intror eq_refl)).
Qed.

Lemma structured_updates_guarded_witness :
  let u : gmap string value :=
    {[ "labels" := VDict {[ "put" := VList [VDict {[ "externalId" := VStr "PUMP" ]}] ]} ]} in
  AssetUpdate.types u
    = Raise (Exception
        "Use the put_type and remove_type functions to handle type updates") ∧
  AssetUpdate.labels u
    = Raise (Exception
        "Use the put_label and remove_label functions to handle label updates") ∧
  AssetUpdate.records_under
    (AssetUpdate.put_type (VDict ∅) (VInt 1) (VInt 3) VNone) "types" "put"
    (VDict {[ "type" := VDict {[ "id" := VInt 3; "externalId" := VNone;
                                "version" := VInt 1 ]};
              "properties" := VDict ∅ ]}) u ∧
  AssetUpdate.records_under
    (AssetUpdate.remove_type (VInt 1) (VInt 3) VNone) "types" "remove"
    (VDict {[ "id" := VInt 3; "externalId" := VNone;
              "version" := VInt 1 ]}) u ∧
  AssetUpdate.records_under
    (AssetUpdate.put_label VNone) "labels" "put"
    (VDict {[ "externalId" := VNone ]}) u ∧
  AssetUpdate.records_under
    (AssetUpdate.remove_label VNone) "labels" "remove"
    (VDict {[ "externalId" := VNone ]}) u.
Proof.
  intros u.
  apply (structured_updates_guarded u (VDict ∅) (VInt 1) (VInt 3) VNone).
  reflexivity.
Defined.

(** The builders chained on a fresh update, as a caller would. *)
Lemma label_updates_chain :
  (u1 ← AssetUpdate.put_label (VStr "PUMP") ∅;
   u2 ← AssetUpdate.put_label (VStr "VALVE") u1;
   AssetUpdate.remove_label (VStr "OLD") u2)
  = Ok {[ "labels" :=
            VDict {[ "put" := VList [VDict {[ "externalId" := VStr "PUMP" ]};
                                     VDict {[ "externalId" := VStr "VALVE" ]}];
                     "remove" := VList [VDict {[ "externalId" := VStr "OLD" ]}] ]} ]}.
Proof. vm_compute. reflexivity. Qed.

(** ** [AssetList._retrieve_related_resources] *)

(** One critical section: what it appends is new, free of repetitions, and
    ends up in [seen] together with every id of the batch. *)
Lemma deduplicate_spec (res : list AssetList.resource) :
  ∀ (seen seen' : gset Z) (out : list AssetList.resource),
    AssetList.deduplicate res seen = (out, seen') →
    NoDup (AssetList.ids_of out) ∧
    (∀ x, x ∈ AssetList.ids_of out → x ∉ seen) ∧
    (∀ x, x ∈ seen' ↔ x ∈ seen ∨ x ∈ AssetList.ids_of out) ∧
    (∀ x, x ∈ AssetList.ids_of res → x ∈ seen').
Proof.
  induction res as [| r res IH]; intros seen seen' out H; cbn in H.
  - injection H as <- <-. cbn. split; [constructor |].
    split; [intros x Hx; inversion Hx |].
    split; [intros x; rewrite elem_of_nil; tauto |].
    intros x Hx; inversion Hx.
  - destruct (decide (AssetList.id r ∈ seen)) as [Hin | Hnin].
    + destruct (IH _ _ _ H) as (Hnd & Hnew & Hseen & Hall).
      split; [exact Hnd |]. split; [exact Hnew |]. split; [exact Hseen |].
      intros x Hx. cbn in Hx. apply elem_of_cons in Hx as [-> | Hx].
      * apply Hseen. by left.
      * by apply Hall.
    + destruct (AssetList.deduplicate res ({[AssetList.id r]} ∪ seen))
        as [out0 seen0] eqn:Hrec.
      injection H as <- <-.
      destruct (IH _ _ _ Hrec) as (Hnd & Hnew & Hseen & Hall).
      cbn. split; [| split; [| split]].
      * apply NoDup_cons. split; [| exact Hnd].
        intros Hx. apply (Hnew _ Hx). set_solver.
      * intros x Hx. apply elem_of_cons in Hx as [-> | Hx]; [exact Hnin |].
        specialize (Hnew _ Hx). set_solver.
      * intros x. rewrite Hseen, elem_of_cons. set_solver.
      * intros x Hx. apply elem_of_cons in Hx as [-> | Hx].
        -- apply Hseen. left. set_solver.
        -- by apply Hall.
Qed.

Lemma deduplicated_empty : AssetList.deduplicated ∅ ∅.
Proof.
  split.
  - intros i out H. by rewrite lookup_empty in H.
  - intros i j a b _ H. by rewrite lookup_empty in H.
Qed.

(** A critical section keeps the invariant, whichever task it belongs to
    and whatever was stored for that task before. *)
Lemma deduplicated_step (list_api : list Z → list AssetList.resource)
    (asset_ids : list Z) (i : nat) (seen seen' : gset Z)
    (results : gmap nat (list AssetList.resource))
    (out : list AssetList.resource) :
  AssetList.deduplicated seen results →
  AssetList.retrieve_and_deduplicate list_api asset_ids seen = (out, seen') →
  AssetList.deduplicated seen' (<[i := out]> results).
Proof.
  intros [Hin Hdisj] Hstep.
  destruct (deduplicate_spec _ _ _ _ Hstep) as (Hnd & Hnew & Hseen & _).
  split.
  - intros j o Hj. destruct (decide (i = j)) as [<- | Hne].
    + rewrite lookup_insert_eq in Hj. injection Hj as <-.
      split; [exact Hnd |]. intros x Hx. apply Hseen. by right.
    + rewrite lookup_insert_ne in Hj by done.
      destruct (Hin _ _ Hj) as [Hnd' Hsub].
      split; [exact Hnd' |]. intros x Hx. apply Hseen. left. by apply Hsub.
  - intros j k a b Hjk Hj Hk x Hxa Hxb.
    destruct (decide (i = j)) as [<- | Hij];
      destruct (decide (i = k)) as [<- | Hik]; try done.
    + rewrite lookup_insert_eq in Hj. injection Hj as <-.
      rewrite lookup_insert_ne in Hk by done.
      apply (Hnew _ Hxa). by apply (Hin _ _ Hk).
    + rewrite lookup_insert_eq in Hk. injection Hk as <-.
      rewrite lookup_insert_ne in Hj by done.
      apply (Hnew _ Hxb). by apply (Hin _ _ Hj).
    + rewrite lookup_insert_ne in Hj, Hk by done.
      exact (Hdisj _ _ _ _ Hjk Hj Hk x Hxa Hxb).
Qed.

Lemma run_schedule_deduplicated (list_api : list Z → list AssetList.resource)
    (tasks : list (list Z)) (schedule : list nat) :
  ∀ (seen seen' : gset Z) (results results' : gmap nat (list AssetList.resource)),
    AssetList.deduplicated seen results →
    AssetList.run_schedule list_api tasks schedule seen results
      = (seen', results') →
    AssetList.deduplicated seen' results'.
Proof.
  induction schedule as [| i schedule IH];
    intros seen seen' results results' Hinv Hrun; cbn in Hrun.
  - by injection Hrun as <- <-.
  - destruct (tasks !! i) as [asset_ids |]; [| by eapply IH].
    destruct (AssetList.retrieve_and_deduplicate list_api asset_ids seen)
      as [out seen0] eqn:Hstep.
    eapply IH; [| exact Hrun]. by eapply deduplicated_step.
Qed.

Lemma elem_of_concat_inv {A : Type} (x : A) (ls : list (list A)) :
  x ∈ concat ls → ∃ l, x ∈ l ∧ l ∈ ls.
Proof.
  induction ls as [| l ls IH]; cbn; intros Hx.
  - inversion Hx.
  - apply elem_of_app in Hx as [Hx | Hx].
    + exists l. split; [exact Hx | by left].
    + destruct (IH Hx) as (l' & Hl' & Hin). exists l'.
      split; [exact Hl' | by right].
Qed.

(** Task results that are pairwise disjoint and free of repetitions can be
    concatenated, over distinct task numbers, without repeating an id. *)
Lemma deduplicated_concat (seen : gset Z)
    (results : gmap nat (list AssetList.resource)) (order : list nat) :
  AssetList.deduplicated seen results →
  NoDup order →
  NoDup (AssetList.ids_of
           (concat ((λ i, default [] (results !! i)) <$> order))).
Proof.
  intros [Hin Hdisj]. induction order as [| i order IH]; intros Hnd.
  - constructor.
  - apply NoDup_cons in Hnd as [Hi Hnd]. cbn.
    unfold AssetList.ids_of in *. rewrite fmap_app.
    apply NoDup_app. split; [| split; [| by apply IH]].
    + destruct (results !! i) as [out |] eqn:Hout; cbn; [| constructor].
      by apply (Hin _ _ Hout).
    + intros x Hx Hx'.
      destruct (results !! i) as [a |] eqn:Ha; cbn in Hx; [| inversion Hx].
      apply list_elem_of_fmap in Hx' as (r & -> & Hr).
      apply elem_of_concat_inv in Hr as (b & Hrb & Hb).
      apply list_elem_of_fmap in Hb as (j & -> & Hj).
      destruct (results !! j) as [b |] eqn:Hb; cbn in Hrb; [| inversion Hrb].
      assert (i ≠ j) as Hij by (intros ->; contradiction).
      apply (Hdisj _ _ _ _ Hij Ha Hb _ Hx).
      by apply list_elem_of_fmap_2.
Qed.

(** C5. Whatever the assets, the server's answers, the (positive) batch
    size and the order in which the workers enter the critical section, the
    merged sequence holds each related-resource id at most once. *)
Theorem related_resources_unique
    (list_api : list Z → list AssetList.resource)
    (chunk : nat) (ids : list Z) (schedule : list nat)
    (Hchunk : (0 < chunk)%nat) :
  NoDup (AssetList.ids_of
           (AssetList._retrieve_related_resources list_api chunk ids schedule)).
Proof.
  unfold AssetList._retrieve_related_resources,
    AssetList.execute_tasks_concurrently.
  destruct (AssetList.run_schedule list_api _ schedule ∅ ∅)
    as [seen results] eqn:Hrun.
  eapply deduplicated_concat; [| apply NoDup_seq].
  eapply run_schedule_deduplicated; [apply deduplicated_empty | exact Hrun].
Qed.

Lemma related_resources_unique_witness :
  NoDup (AssetList.ids_of
           (AssetList._retrieve_related_resources Samples.related 2
              [1; 2; 3] [1%nat; 0%nat])).
Proof.
  apply (related_resources_unique Samples.related 2 [1; 2; 3] [1%nat; 0%nat]).
  lia.
Defined.

(** The example of the specification: three parents in two batches of at
    most two, all linked to resource 100. It comes out once, whichever batch
    enters the critical section first; only the order differs. *)
Lemma related_resources_two_batches :
  AssetList.chunks 3 2 [1; 2; 3] = [[1; 2]; [3]] ∧
  AssetList.ids_of
    (AssetList._retrieve_related_resources Samples.related 2 [1; 2; 3]
       [0%nat; 1%nat]) = [100; 101; 102; 103; 104] ∧
  AssetList.ids_of
    (AssetList._retrieve_related_resources Samples.related 2 [1; 2; 3]
       [1%nat; 0%nat]) = [101; 102; 100; 103; 104].
Proof. vm_compute. repeat split. Qed.

(** X23. No asset, no task, no request, no resource: on an empty asset
    list the result is empty for every server and every schedule. *)
Lemma related_resources_no_parent
    (list_api : list Z → list AssetList.resource) (chunk : nat)
    (schedule : list nat) :
  AssetList.chunks 0 chunk [] = [] ∧
  AssetList._retrieve_related_resources list_api chunk [] schedule = [].
Proof.
  split; [reflexivity |].
  unfold AssetList._retrieve_related_resources,
    AssetList.execute_tasks_concurrently. cbn.
  by destruct (AssetList.run_schedule list_api [] schedule ∅ ∅).
Qed.

(** The slices are contiguous and cover the ids: the fuel is enough. *)
Lemma chunks_concat (chunk : nat) :
  (0 < chunk)%nat →
  ∀ (fuel : nat) (ids : list Z),
    (length ids ≤ fuel)%nat → concat (AssetList.chunks fuel chunk ids) = ids.
Proof.
  intros Hchunk. induction fuel as [| fuel IH]; intros ids Hlen.
  - destruct ids; [reflexivity | cbn in Hlen; lia].
  - destruct ids as [| a ids]; [reflexivity |].
    change (AssetList.chunks (S fuel) chunk (a :: ids))
      with (take chunk (a :: ids)
              :: AssetList.chunks fuel chunk (drop chunk (a :: ids))).
    cbn [concat]. rewrite IH.
    + apply take_drop.
    + rewrite length_drop. cbn in *. lia.
Qed.

(** When every task enters the critical section once, nothing the server
    returned is lost: [seen] only grows, every id in it sits in some stored
    task result, and the ids of every batch run so far are in it. *)
Lemma run_schedule_complete (list_api : list Z → list AssetList.resource)
    (tasks : list (list Z)) (schedule : list nat) :
  ∀ (seen seen' : gset Z) (results results' : gmap nat (list AssetList.resource)),
    NoDup schedule →
    (∀ i, i ∈ schedule → results !! i = None) →
    (∀ x, x ∈ seen → ∃ i out, results !! i = Some out ∧
                              x ∈ AssetList.ids_of out ∧ is_Some (tasks !! i)) →
    AssetList.run_schedule list_api tasks schedule seen results
      = (seen', results') →
    (∀ x, x ∈ seen' → ∃ i out, results' !! i = Some out ∧
                               x ∈ AssetList.ids_of out ∧ is_Some (tasks !! i)) ∧
    (∀ x, x ∈ seen → x ∈ seen') ∧
    (∀ i asset_ids x, i ∈ schedule → tasks !! i = Some asset_ids →
                      x ∈ AssetList.ids_of (list_api asset_ids) → x ∈ seen').
Proof.
  induction schedule as [| i schedule IH];
    intros seen seen' results results' Hnd Hfree Hcov Hrun; cbn in Hrun.
  - injection Hrun as <- <-. split; [exact Hcov |]. split; [done |].
    intros i a x Hi. inversion Hi.
  - apply NoDup_cons in Hnd as [Hi Hnd].
    destruct (tasks !! i) as [asset_ids |] eqn:Htask.
    + destruct (AssetList.retrieve_and_deduplicate list_api asset_ids seen)
        as [out seen0] eqn:Hstep.
      destruct (deduplicate_spec _ _ _ _ Hstep) as (_ & _ & Hseen & Hall).
      destruct (IH seen0 seen' (<[i := out]> results) results' Hnd)
        as (Hcov' & Hmono & Hbatch); [| | exact Hrun |].
      * intros j Hj. rewrite lookup_insert_ne by (intros ->; contradiction).
        apply Hfree. by right.
      * intros x Hx. apply Hseen in Hx as [Hx | Hx].
        -- destruct (Hcov _ Hx) as (j & o & Hj & Hxo & Ht).
           exists j, o. split; [| done].
           rewrite lookup_insert_ne; [done |].
           intros ->. rewrite Hfree in Hj; [done | by left].
        -- exists i, out. rewrite lookup_insert_eq, Htask. eauto.
      * split; [exact Hcov' |]. split.
        -- intros x Hx. apply Hmono, Hseen. by left.
        -- intros j a x Hj Ha Hx. apply elem_of_cons in Hj as [-> | Hj].
           ++ rewrite Htask in Ha. injection Ha as <-. by apply Hmono, Hall.
           ++ by eapply Hbatch.
    + destruct (IH seen seen' results results' Hnd)
        as (Hcov' & Hmono & Hbatch); [| exact Hcov | exact Hrun |].
      * intros j Hj. apply Hfree. by right.
      * split; [exact Hcov' |]. split; [exact Hmono |].
        intros j a x Hj Ha Hx. apply elem_of_cons in Hj as [-> | Hj].
        -- by rewrite Htask in Ha.
        -- by eapply Hbatch.
Qed.

(** Membership does not depend on the schedule: for every order in which
    the tasks take the lock, each id the server returned for some batch is
    in the merged sequence. *)
Lemma related_resources_complete
    (list_api : list Z → list AssetList.resource)
    (chunk : nat) (ids : list Z) (schedule : list nat)
    (n : nat) (asset_ids : list Z) (r : AssetList.resource) :
  schedule ≡ₚ seq 0 (length (AssetList.chunks (length ids) chunk ids)) →
  AssetList.chunks (length ids) chunk ids !! n = Some asset_ids →
  r ∈ list_api asset_ids →
  AssetList.id r ∈ AssetList.ids_of
    (AssetList._retrieve_related_resources list_api chunk ids schedule).
Proof.
  intros Hperm Hn Hr.
  unfold AssetList._retrieve_related_resources,
    AssetList.execute_tasks_concurrently.
  set (tasks := AssetList.chunks (length ids) chunk ids) in *.
  destruct (AssetList.run_schedule list_api tasks schedule ∅ ∅)
    as [seen results] eqn:Hrun.
  destruct (run_schedule_complete list_api tasks schedule ∅ seen ∅ results)
    as (Hcov & _ & Hbatch).
  - rewrite Hperm. apply NoDup_seq.
  - intros i _. apply lookup_empty.
  - intros x Hx. by apply not_elem_of_empty in Hx.
  - exact Hrun.
  - assert (Hin : n ∈ schedule).
    { rewrite Hperm. apply elem_of_seq. apply lookup_lt_Some in Hn. lia. }
    assert (Hx : AssetList.id r ∈ seen).
    { eapply Hbatch; [exact Hin | exact Hn |]. by apply list_elem_of_fmap_2. }
    destruct (Hcov _ Hx) as (i & out & Hi & Hxo & [a Ha]).
    unfold AssetList.ids_of in *.
    apply list_elem_of_fmap in Hxo as (r' & -> & Hr').
    apply list_elem_of_fmap_2.
    apply list_elem_of_In, in_concat. exists out. split.
    + apply in_map_iff. exists i. rewrite Hi. split; [reflexivity |].
      apply in_seq. apply lookup_lt_Some in Ha. lia.
    + by apply list_elem_of_In.
Qed.

(** The generic setters of the base class assign under the key of their own
    field ([name], [description], ...), which leaves the object well
    formed. *)
Lemma well_formed_insert_other (u : gmap string value) (key : string)
    (v : value) :
  key ≠ "types" → key ≠ "labels" →
  AssetUpdate.well_formed (<[key := v]> u) = AssetUpdate.well_formed u.
Proof.
  intros Ht Hl. unfold AssetUpdate.well_formed.
  by rewrite !field_ok_insert_other.
Qed.

(** * Further properties of the job handles *)

Lemma job_result_excludes_common_fields_witness :
  ∃ j' payload,
    ContextualizationJob.update_status Samples.job [Samples.completed_items]
      = (Ok (VStr "Completed"), j', []) ∧
    ContextualizationJob._result j' = Some payload ∧
    ∀ k v, payload !! k = Some v ↔
           Samples.completed_items !! k = Some v ∧
           k ∉ ["status"; "jobId"; "errorMessage"; "requestTimestamp";
                "startTimestamp"; "statusTimestamp"].
Proof.
  apply (job_result_excludes_common_fields Samples.job Samples.completed_items
           [] (VStr "Completed")); reflexivity.
Defined.

Lemma job_poll_no_status (j : ContextualizationJob.t) (data : response) :
  data !! "status" = None →
  ContextualizationJob.poll j data = Raise (KeyError "status").
Proof.
  intros H. unfold ContextualizationJob.poll, dict_getitem. by rewrite H.
Qed.

Lemma model_poll_no_status (m : EntityMatchingModel.t) (data : response) :
  data !! "status" = None →
  EntityMatchingModel.poll m data = Raise (KeyError "status").
Proof.
  intros H. unfold EntityMatchingModel.poll, dict_getitem. by rewrite H.
Qed.

(** X2. A poll response without a [status] key makes [update_status] and
    [wait_for_completion] raise [KeyError("status")]; the response is
    consumed and the handle keeps every attribute it had, on a job and on a
    model. *)
Theorem missing_status_raises_key_error
    (j : ContextualizationJob.t) (m : EntityMatchingModel.t)
    (data : response) (net : list response)
    (Hmissing : data !! "status" = None) :
  ContextualizationJob.update_status j (data :: net)
    = (Raise (KeyError "status"), j, net) ∧
  ContextualizationJob.wait_for_completion j (data :: net)
    = (Raise (KeyError "status"), j, net) ∧
  ContextualizationJob.result
      (ContextualizationJob.init (ContextualizationJob.__class__ j)
                                 (ContextualizationJob.job_id j))
      (data :: net)
    = (Raise (KeyError "status"),
       ContextualizationJob.init (ContextualizationJob.__class__ j)
                                 (ContextualizationJob.job_id j), net) ∧
  EntityMatchingModel.update_status m (data :: net)
    = (Raise (KeyError "status"), m, net) ∧
  EntityMatchingModel.wait_for_completion m (data :: net)
    = (Raise (KeyError "status"), m, net).
Proof.
  unfold ContextualizationJob.result, ContextualizationJob.update_status,
    EntityMatchingModel.update_status.
  cbn. rewrite !job_poll_no_status, !model_poll_no_status by exact Hmissing.
  repeat split.
Qed.

Lemma missing_status_raises_key_error_witness :
  let data : response := {[ "jobId" := VInt 7 ]} in
  ContextualizationJob.update_status Samples.job [data]
    = (Raise (KeyError "status"), Samples.job, []) ∧
  ContextualizationJob.wait_for_completion Samples.job [data]
    = (Raise (KeyError "status"), Samples.job, []) ∧
  ContextualizationJob.result Samples.job [data]
    = (Raise (KeyError "status"), Samples.job, []) ∧
  EntityMatchingModel.update_status Samples.model [data]
    = (Raise (KeyError "status"), Samples.model, []) ∧
  EntityMatchingModel.wait_for_completion Samples.model [data]
    = (Raise (KeyError "status"), Samples.model, []).
Proof.
  intros data.
  exact (missing_status_raises_key_error Samples.job Samples.model data []
           eq_refl).
Defined.

Lemma py_or_idem (v w : value) : py_or (py_or v w) w = py_or v w.
Proof. unfold py_or. destruct (truthy v) eqn:Hv; [by rewrite Hv |]. by destruct (truthy w). Qed.

(** X3. The handle reflects the latest poll: after two polls, the status,
    both timestamps, the error message and the cached payload are those a
    single poll with the second response would have set; only
    [request_timestamp] can still come from before. *)
Theorem last_poll_wins
    (j : ContextualizationJob.t) (d1 d2 : response) (net : list response)
    (st1 st2 : value)
    (H1 : d1 !! "status" = Some st1)
    (H2 : d2 !! "status" = Some st2) :
  ∃ j1 j2 j2',
    ContextualizationJob.update_status j (d1 :: d2 :: net)
      = (Ok st1, j1, d2 :: net) ∧
    ContextualizationJob.update_status j1 (d2 :: net) = (Ok st2, j2, net) ∧
    ContextualizationJob.update_status j (d2 :: net) = (Ok st2, j2', net) ∧
    ContextualizationJob.status j2 = ContextualizationJob.status j2' ∧
    ContextualizationJob.status_timestamp j2
      = ContextualizationJob.status_timestamp j2' ∧
    ContextualizationJob.start_timestamp j2
      = ContextualizationJob.start_timestamp j2' ∧
    ContextualizationJob.error_message j2
      = ContextualizationJob.error_message j2' ∧
    ContextualizationJob._result j2 = ContextualizationJob._result j2'.
Proof.
  destruct (job_poll_fields j d1 st1 H1)
    as (j1 & Hp1 & Hc1 & _ & Hs1 & _).
  destruct (job_poll_fields j1 d2 st2 H2)
    as (j2 & Hp2 & _ & _ & Hs2 & Hsts2 & Hstart2 & _ & Herr2 & Hres2).
  destruct (job_poll_fields j d2 st2 H2)
    as (j2' & Hp2' & _ & _ & Hs2' & Hsts2' & Hstart2' & _ & Herr2' & Hres2').
  exists j1, j2, j2'. unfold ContextualizationJob.update_status.
  rewrite Hp1, Hp2, Hp2', Hs1, Hs2, Hs2', Hsts2, Hsts2', Hstart2, Hstart2',
    Herr2, Herr2', Hres2, Hres2', Hc1.
  repeat split.
Qed.

Lemma last_poll_wins_witness :
  ∃ j1 j2 j2',
    ContextualizationJob.update_status Samples.job
        [Samples.running_at_5; Samples.completed_items]
      = (Ok (VStr "Running"), j1, [Samples.completed_items]) ∧
    ContextualizationJob.update_status j1 [Samples.completed_items]
      = (Ok (VStr "Completed"), j2, []) ∧
    ContextualizationJob.update_status Samples.job [Samples.completed_items]
      = (Ok (VStr "Completed"), j2', []) ∧
    ContextualizationJob.status j2 = ContextualizationJob.status j2' ∧
    ContextualizationJob.status_timestamp j2
      = ContextualizationJob.status_timestamp j2' ∧
    ContextualizationJob.start_timestamp j2
      = ContextualizationJob.start_timestamp j2' ∧
    ContextualizationJob.error_message j2
      = ContextualizationJob.error_message j2' ∧
    ContextualizationJob._result j2 = ContextualizationJob._result j2'.
Proof.
  exact (last_poll_wins Samples.job Samples.running_at_5
           Samples.completed_items [] (VStr "Running") (VStr "Completed")
           eq_refl eq_refl).
Defined.

(** X4. Polling is idempotent: a second poll answered with the same
    response leaves the handle exactly as the first poll left it, on a job
    and on a model. *)
Theorem update_status_idempotent
    (j j1 : ContextualizationJob.t) (m m1 : EntityMatchingModel.t)
    (data : response) (net : list response) (st : value)
    (Hj : ContextualizationJob.update_status j (data :: data :: net)
            = (Ok st, j1, data :: net))
    (Hm : EntityMatchingModel.update_status m (data :: data :: net)
            = (Ok st, m1, data :: net)) :
  ContextualizationJob.update_status j1 (data :: net) = (Ok st, j1, net) ∧
  EntityMatchingModel.update_status m1 (data :: net) = (Ok st, m1, net).
Proof.
  unfold ContextualizationJob.update_status, EntityMatchingModel.update_status
    in *.
  unfold ContextualizationJob.poll, EntityMatchingModel.poll in *.
  destruct (dict_getitem data "status") as [s | e |]; cbn in *;
    try discriminate Hj.
  injection Hj as -> <-. injection Hm as <-. cbn.
  rewrite !py_or_idem. split; reflexivity.
Qed.

Lemma update_status_idempotent_witness :
  ∃ j1 m1,
    ContextualizationJob.update_status j1 [Samples.running_at_5]
      = (Ok (VStr "Running"), j1, []) ∧
    EntityMatchingModel.update_status m1 [Samples.running_at_5]
      = (Ok (VStr "Running"), m1, []).
Proof.
  eexists _, _.
  apply (update_status_idempotent Samples.job _ Samples.model _
           Samples.running_at_5 [] (VStr "Running")); reflexivity.
Defined.

Lemma job_poll_identity (j j' : ContextualizationJob.t) (data : response) :
  ContextualizationJob.poll j data = Ok j' →
  ContextualizationJob.__class__ j' = ContextualizationJob.__class__ j ∧
  ContextualizationJob.job_id j' = ContextualizationJob.job_id j ∧
  ContextualizationJob.pipeline_id j' = ContextualizationJob.pipeline_id j ∧
  (truthy (ContextualizationJob.request_timestamp j) = true →
   ContextualizationJob.request_timestamp j'
     = ContextualizationJob.request_timestamp j).
Proof.
  unfold ContextualizationJob.poll.
  destruct (dict_getitem data "status"); cbn; intros H; try discriminate.
  injection H as <-. cbn. repeat split. intros Ht. unfold py_or. by rewrite Ht.
Qed.

Lemma job_wait_identity (net : list response) :
  ∀ (j j' : ContextualizationJob.t) (o : outcome unit) (net' : list response),
    ContextualizationJob.wait_for_completion j net = (o, j', net') →
    ContextualizationJob.__class__ j' = ContextualizationJob.__class__ j ∧
    ContextualizationJob.job_id j' = ContextualizationJob.job_id j ∧
    ContextualizationJob.pipeline_id j' = ContextualizationJob.pipeline_id j ∧
    (truthy (ContextualizationJob.request_timestamp j) = true →
     ContextualizationJob.request_timestamp j'
       = ContextualizationJob.request_timestamp j).
Proof.
  induction net as [| data net IH]; intros j j' o net' H; cbn in H.
  - by injection H as _ <- _.
  - destruct (ContextualizationJob.poll j data) as [j0 | e |] eqn:Hp;
      [| by injection H as _ <- _ | by injection H as _ <- _].
    destruct (job_poll_identity _ _ _ Hp) as (Hc & Hi & Hpi & Hr).
    destruct (negb _).
    + by injection H as _ <- _.
    + destruct (IH _ _ _ _ H) as (Hc' & Hi' & Hpi' & Hr').
      rewrite Hc', Hi', Hpi'. repeat split; try done.
      intros Ht. rewrite Hr', (Hr Ht); [done |]. by rewrite (Hr Ht).
Qed.

(** X5. Whatever the server answers and however the call ends, the
    [result] accessor and the wait behind it never change the handle's
    class, its [job_id] or its [pipeline_id], and a [request_timestamp]
    that holds a true value is kept. *)
Theorem result_keeps_identity
    (j j' : ContextualizationJob.t) (net net' : list response)
    (o : outcome (option (gmap string value)))
    (Hrun : ContextualizationJob.result j net = (o, j', net')) :
  ContextualizationJob.__class__ j' = ContextualizationJob.__class__ j ∧
  ContextualizationJob.job_id j' = ContextualizationJob.job_id j ∧
  ContextualizationJob.pipeline_id j' = ContextualizationJob.pipeline_id j ∧
  (truthy (ContextualizationJob.request_timestamp j) = true →
   ContextualizationJob.request_timestamp j'
     = ContextualizationJob.request_timestamp j).
Proof.
  unfold ContextualizationJob.result in Hrun.
  destruct (ContextualizationJob.not_result _).
  - destruct (ContextualizationJob.wait_for_completion j net)
      as [[o0 j0] net0] eqn:Hw.
    pose proof (job_wait_identity _ _ _ _ _ Hw) as Hid.
    destruct o0; injection Hrun as _ <- _; exact Hid.
  - by injection Hrun as _ <- _.
Qed.

Lemma result_keeps_identity_witness :
  ∃ o j',
    ContextualizationJob.result Samples.pipeline_run
      [Samples.queued; Samples.failed] = (o, j', []) ∧
    ContextualizationJob.__class__ j'
      = ContextualizationJob.cls_EntityMatchingPipelineRun ∧
    ContextualizationJob.job_id j' = VInt 7 ∧
    ContextualizationJob.pipeline_id j' = VNone ∧
    (truthy VNone = true → ContextualizationJob.request_timestamp j' = VNone).
Proof.
  eexists _, _. split; [vm_compute; reflexivity |].
  eapply (result_keeps_identity Samples.pipeline_run _
            [Samples.queued; Samples.failed] []).
  vm_compute; reflexivity.
Defined.



(** X7. As long as every response says Queued or Running the wait goes on:
    it consumes the whole script and is still pending, without returning or
    raising, on a job and on a model. *)
Theorem wait_for_completion_keeps_polling
    (net : list response) (j : ContextualizationJob.t)
    (m : EntityMatchingModel.t)
    (Hwaiting : Forall keeps_waiting net) :
  (∃ j', ContextualizationJob.wait_for_completion j net = (Pending, j', [])) ∧
  (∃ m', EntityMatchingModel.wait_for_completion m net = (Pending, m', [])).
Proof.
  revert j m. induction Hwaiting as [| data net (st & Hst & Hw) _ IH];
    intros j m.
  - split; eexists; reflexivity.
  - destruct (job_poll_fields j data st Hst) as (j0 & Hpj & _ & _ & Hsj & _).
    destruct (model_poll_fields m data st Hst) as (m0 & Hpm & _ & Hsm & _).
    destruct (IH j0 m0) as [[j' Hj'] [m' Hm']].
    split; [exists j' | exists m'];
      rewrite ?job_wait_for_completion_unfold,
        ?model_wait_for_completion_unfold;
      unfold ContextualizationJob.update_status,
        EntityMatchingModel.update_status.
    + by rewrite Hpj, Hsj, Hw.
    + by rewrite Hpm, Hsm, Hw.
Qed.

Lemma wait_for_completion_keeps_polling_witness :
  (∃ j', ContextualizationJob.wait_for_completion Samples.job
           [Samples.queued; Samples.running; Samples.running]
         = (Pending, j', [])) ∧
  (∃ m', EntityMatchingModel.wait_for_completion Samples.model
           [Samples.queued; Samples.running; Samples.running]
         = (Pending, m', [])).
Proof.
  apply (wait_for_completion_keeps_polling
           [Samples.queued; Samples.running; Samples.running]).
  repeat constructor;
    (eexists; split; [reflexivity | reflexivity]).
Defined.

(** X8. The wait stops at the first terminal poll, however many Queued or
    Running polls come before it: it consumes the script up to and
    including that poll and nothing after it, and the outcome is the
    failure exception on status Failed and a normal return otherwise, on a
    job and on a model. *)
Theorem wait_for_completion_stops_at_first_terminal
    (pre : list response) (last : response) (rest : list response)
    (st : value) (j : ContextualizationJob.t) (m : EntityMatchingModel.t)
    (Hpre : Forall keeps_waiting pre)
    (Hlast : last !! "status" = Some st)
    (Hterminal : in_strs st ["Queued"; "Running"] = false) :
  (∃ j',
     ContextualizationJob.wait_for_completion j (pre ++ last :: rest)
       = (if eq_str st "Failed"
          then Raise (ModelFailedException
                        (ContextualizationJob.class_name
                           (ContextualizationJob.__class__ j))
                        (ContextualizationJob.job_id j)
                        (dict_get last "errorMessage"))
          else Ok tt, j', rest) ∧
     ContextualizationJob.status j' = st) ∧
  (∃ m',
     EntityMatchingModel.wait_for_completion m (pre ++ last :: rest)
       = (if eq_str st "Failed"
          then Raise (ModelFailedException "EntityMatchingModel"
                        (EntityMatchingModel.id m)
                        (dict_get last "errorMessage"))
          else Ok tt, m', rest) ∧
     EntityMatchingModel.status m' = st).
Proof.
  split.
  - destruct (job_wait_reaches_terminal pre j last rest st Hpre Hlast Hterminal)
      as (j' & Hw & Hc & Hid & Hst & Herr & _).
    exists j'. split; [| exact Hst]. rewrite Hw.
    unfold ContextualizationJob.raise_if_failed.
    by rewrite Hst, Hc, Hid, Herr.
  - destruct (model_wait_reaches_terminal pre m last rest st Hpre Hlast Hterminal)
      as (m' & Hw & Hid & Hst & Herr).
    exists m'. split; [| exact Hst]. rewrite Hw.
    unfold EntityMatchingModel.raise_if_failed.
    by rewrite Hst, Hid, Herr.
Qed.

Lemma wait_for_completion_stops_at_first_terminal_witness :
  (∃ j',
     ContextualizationJob.wait_for_completion Samples.job
       [Samples.queued; Samples.running; Samples.running;
        Samples.completed_items; Samples.failed]
       = (Ok tt, j', [Samples.failed]) ∧
     ContextualizationJob.status j' = VStr "Completed") ∧
  (∃ m',
     EntityMatchingModel.wait_for_completion Samples.model
       [Samples.queued; Samples.running; Samples.running;
        Samples.completed_items; Samples.failed]
       = (Ok tt, m', [Samples.failed]) ∧
     EntityMatchingModel.status m' = VStr "Completed").
Proof.
  apply (wait_for_completion_stops_at_first_terminal
           [Samples.queued; Samples.running; Samples.running]
           Samples.completed_items [Samples.failed] (VStr "Completed")
           Samples.job Samples.model).
  - repeat constructor; (eexists; split; [reflexivity | reflexivity]).
  - reflexivity.
  - reflexivity.
Defined.

(** X9. On a handle with nothing cached, [result] propagates the failure:
    when the polls end in status Failed the access raises the
    [ModelFailedException] of the wait instead of returning a payload. *)
Theorem result_raises_on_failed
    (pre : list response) (last : response) (rest : list response)
    (j : ContextualizationJob.t)
    (Hfresh : ContextualizationJob._result j = None)
    (Hpre : Forall keeps_waiting pre)
    (Hlast : last !! "status" = Some (VStr "Failed")) :
  ∃ j',
    ContextualizationJob.result j (pre ++ last :: rest)
      = (Raise (ModelFailedException
                  (ContextualizationJob.class_name
                     (ContextualizationJob.__class__ j))
                  (ContextualizationJob.job_id j)
                  (dict_get last "errorMessage")), j', rest) ∧
    ContextualizationJob.status j' = VStr "Failed".
Proof.
  destruct (job_wait_reaches_terminal pre j last rest (VStr "Failed")
              Hpre Hlast eq_refl)
    as (j' & Hw & Hc & Hid & Hst & Herr & _).
  exists j'. split; [| exact Hst].
  unfold ContextualizationJob.result. rewrite Hfresh.
  cbn [ContextualizationJob.not_result]. rewrite Hw.
  unfold ContextualizationJob.raise_if_failed.
  by rewrite Hst, Hc, Hid, Herr.
Qed.

Lemma result_raises_on_failed_witness :
  ∃ j',
    ContextualizationJob.result Samples.job
      [Samples.queued; Samples.failed; Samples.completed_items]
      = (Raise (ModelFailedException "ContextualizationJob" (VInt 7)
                  (VStr "out of memory")), j', [Samples.completed_items]) ∧
    ContextualizationJob.status j' = VStr "Failed".
Proof.
  apply (result_raises_on_failed [Samples.queued] Samples.failed
           [Samples.completed_items] Samples.job).
  - reflexivity.
  - repeat constructor. eexists; split; reflexivity.
  - reflexivity.
Defined.

Lemma result_resolves_witness :
  ∃ j',
    ContextualizationJob.result Samples.job
      [Samples.queued; Samples.completed_items]
      = (Ok (Some (filter (λ kv, kv.1 ∉ ContextualizationJob.self_COMMON_FIELDS
                             (ContextualizationJob.__class__ Samples.job))
                     Samples.completed_items)), j', []).
Proof.
  apply (result_resolves [Samples.queued] Samples.job Samples.completed_items
           [] (VStr "Completed")).
  - reflexivity.
  - repeat constructor. eexists; split; reflexivity.
  - reflexivity.
  - reflexivity.
  - reflexivity.
Defined.

(** * Further properties of the entity matching model *)

Lemma convert_true_match_pair_of_list (ctor : list value → value)
    (l : list value) :
  (ctor = VTuple ∨ ctor = VList) → length l = 2%nat →
  ∃ d, convert_true_match (ctor l) = Ok (VDict d).
Proof.
  intros Hc Hl. destruct l as [| a [| b [| c l]]]; try discriminate Hl.
  destruct Hc as [-> | ->];
    unfold convert_true_match, convert_step; cbn;
    destruct (isinstance_str a), (isinstance_str b); cbn; eauto.
Qed.

Lemma convert_true_match_length_not_2 (v : value) (n : Z) :
  isinstance_dict v = false → py_len v = Ok n → n ≠ 2 →
  convert_true_match v = Ok v.
Proof.
  intros Hd Hn Hne. unfold convert_true_match. rewrite Hd, Hn. cbn.
  destruct (Z.eqb_spec n 2); [contradiction | reflexivity].
Qed.

Lemma convert_true_match_two_chars (s : string) :
  length (code_points s) = 2%nat →
  ∃ d, convert_true_match (VStr s) = Ok (VDict d).
Proof.
  intros Hl. unfold convert_true_match, convert_step, py_getitem, py_len.
  destruct (code_points s) as [| c1 [| c2 [| c3 cs]]]; try discriminate Hl.
  cbn. eauto.
Qed.

(** On the sequences and on dicts the call returns, a dict or its input. *)
Lemma convert_true_match_sequence_or_dict (v : value) :
  match v with
  | VStr _ | VTuple _ | VList _ | VDict _ =>
      ∃ v', convert_true_match v = Ok v' ∧ (isinstance_dict v' = true ∨ v' = v)
  | _ => True
  end.
Proof.
  destruct v as [| b | z | m e | s | l | l | d | l]; try exact I.
  - destruct (decide (length (code_points s) = 2%nat)) as [Hl | Hl].
    + destruct (convert_true_match_two_chars s Hl) as [d Hd].
      exists (VDict d). split; [exact Hd | by left].
    + exists (VStr s). split; [| by right].
      apply (convert_true_match_length_not_2 _
               (Z.of_nat (length (code_points s))));
        [reflexivity | reflexivity | lia].
  - destruct (decide (length l = 2%nat)) as [Hl | Hl].
    + destruct (convert_true_match_pair_of_list VTuple l (or_introl eq_refl) Hl)
        as [d Hd]. exists (VDict d). split; [exact Hd | by left].
    + exists (VTuple l). split; [| by right].
      apply (convert_true_match_length_not_2 _ (Z.of_nat (length l)));
        [reflexivity | reflexivity | lia].
  - destruct (decide (length l = 2%nat)) as [Hl | Hl].
    + destruct (convert_true_match_pair_of_list VList l (or_intror eq_refl) Hl)
        as [d Hd]. exists (VDict d). split; [exact Hd | by left].
    + exists (VList l). split; [| by right].
      apply (convert_true_match_length_not_2 _ (Z.of_nat (length l)));
        [reflexivity | reflexivity | lia].
  - exists (VDict d). split; [reflexivity | by left].
Qed.

Lemma convert_true_match_set (l : list value) :
  convert_true_match (VSet l)
  = if Nat.eqb (length l) 2 then Raise TypeError else Ok (VSet l).
Proof.
  destruct (Nat.eqb_spec (length l) 2) as [Hl | Hl].
  - destruct l as [| a [| b [| c l]]]; try discriminate Hl. reflexivity.
  - apply (convert_true_match_length_not_2 _ (Z.of_nat (length l)));
      [reflexivity | reflexivity | lia].
Qed.

(** Whatever the input, the call returns a dict or its input, or raises
    [TypeError]. *)
Lemma convert_true_match_ok_or_type_error (v : value) :
  (∃ v', convert_true_match v = Ok v' ∧ (isinstance_dict v' = true ∨ v' = v)) ∨
  convert_true_match v = Raise TypeError.
Proof.
  pose proof (convert_true_match_sequence_or_dict v) as H.
  destruct v as [| b | z | m e | s | l | l | d | l];
    try (by left); try (by right).
  rewrite convert_true_match_set.
  destruct (Nat.eqb (length l) 2); [by right |]. left. eauto.
Qed.

(** X11. [convert_true_match] raises nothing but [TypeError], and exactly
    on the inputs it cannot measure or index: [None], a bool, an int and a
    float have no length, and a two-element set cannot be subscripted. On
    every str, tuple, list and dict, and on a set of any other size, it
    returns, and what it returns is a dict or the input itself. *)
Theorem convert_true_match_raises_type_error_only (v : value) :
  match v with
  | VNone | VBool _ | VInt _ | VFloat _ _ =>
      convert_true_match v = Raise TypeError
  | VSet l =>
      convert_true_match v
      = if Nat.eqb (length l) 2 then Raise TypeError else Ok v
  | VStr _ | VTuple _ | VList _ | VDict _ =>
      ∃ v', convert_true_match v = Ok v' ∧ (isinstance_dict v' = true ∨ v' = v)
  end.
Proof.
  pose proof (convert_true_match_sequence_or_dict v) as H.
  destruct v as [| b | z | m e | s | l | l | d | l];
    try exact H; try reflexivity.
  apply convert_true_match_set.
Qed.

(** A two-character string is split like a pair, also when a character
    takes more than one byte; a longer string is passed through. *)
Lemma convert_true_match_non_ascii :
  convert_true_match (VStr "éa")
    = Ok (VDict {[ "fromExternalId" := VStr "é";
                   "toExternalId" := VStr "a" ]}) ∧
  py_len (VStr "é") = Ok 1 ∧
  convert_true_match (VStr "éab") = Ok (VStr "éab").
Proof. vm_compute. repeat split. Qed.

(** X12. Normalization is idempotent: what [convert_true_match] returns is
    returned unchanged when it is normalized again, so a list of true
    matches can be normalized more than once without harm. *)
Theorem convert_true_match_idempotent (v v' : value)
    (Hfirst : convert_true_match v = Ok v') :
  convert_true_match v' = Ok v'.
Proof.
  destruct (convert_true_match_ok_or_type_error v)
    as [(w & Hw & [Hdict | ->]) | Hraise]; [| congruence | congruence].
  rewrite Hw in Hfirst. injection Hfirst as <-.
  destruct w; try discriminate Hdict. reflexivity.
Qed.

Lemma convert_true_match_idempotent_witness :
  convert_true_match
    (VDict {[ "fromId" := VInt 101; "toExternalId" := VStr "ext-5" ]})
  = Ok (VDict {[ "fromId" := VInt 101; "toExternalId" := VStr "ext-5" ]}).
Proof.
  apply (convert_true_match_idempotent (VTuple [VInt 101; VStr "ext-5"])).
  reflexivity.
Defined.

(** X13. The reduction of a resource only removes fields, and it is
    idempotent: reducing the reduced dump changes nothing. *)
Theorem dump_entity_idempotent (dump : gmap string value) :
  ∃ r,
    EntityMatchingModel.dump_entity (EntityMatchingModel.Resource dump)
      = VDict r ∧
    r ⊆ dump ∧
    EntityMatchingModel.dump_entity (EntityMatchingModel.Resource r) = VDict r.
Proof.
  eexists. split; [reflexivity |]. split; [apply map_filter_subseteq |].
  cbn. f_equal. apply map_eq. intros k. apply option_eq. intros v.
  rewrite !map_lookup_filter_Some. tauto.
Qed.

(** X14. [dump_entities] returns [None] exactly when it is given [None] or
    an empty list; otherwise it returns one serialized entity per input. *)
Theorem dump_entities_none_iff_nothing
    (entities : option (list EntityMatchingModel.entity)) :
  (EntityMatchingModel.dump_entities entities = None ↔
   entities = None ∨ entities = Some []) ∧
  (∀ out, EntityMatchingModel.dump_entities entities = Some out →
          ∃ es, entities = Some es ∧ length out = length es ∧ es ≠ []).
Proof.
  destruct entities as [[| e es] |]; cbn; split.
  - split; [by right | done].
  - discriminate.
  - split; [discriminate |]. intros [H | H]; discriminate H.
  - intros out H. injection H as <-. exists (e :: es).
    split; [done |]. split; [| done]. cbn. by rewrite length_fmap.
  - split; [by left | done].
  - discriminate.
Qed.

Lemma mapM_convert_unsized (true_matches : list value) (v : value) :
  v ∈ true_matches → py_len v = Raise TypeError →
  mapM convert_true_match true_matches = Raise TypeError.
Proof.
  intros Hin Hlen. induction true_matches as [| a l IH]; [inversion Hin |].
  cbn. apply elem_of_cons in Hin as [<- | Hin].
  - by rewrite (convert_true_match_unsized v Hlen).
  - destruct (convert_true_match_ok_or_type_error a) as [(a' & Ha & _) | Ha];
      rewrite Ha; cbn; [| reflexivity].
    by rewrite (IH Hin).
Qed.

(** X15. [refit] normalizes the true matches before anything else: when
    one of them has no length the call raises [TypeError] without polling
    the receiver, without a request to the server and without a new model;
    the world is left as it was. *)
Theorem refit_rejects_unsized_true_match
    (w : EntityMatchingModel.world) (self : nat) (m : EntityMatchingModel.t)
    (true_matches : list value) (v : value)
    (Hself : EntityMatchingModel.heap w !! self = Some m)
    (Hin : v ∈ true_matches)
    (Hunsized : py_len v = Raise TypeError) :
  EntityMatchingModel.refit self true_matches w = (Raise TypeError, w).
Proof.
  unfold EntityMatchingModel.refit.
  by rewrite Hself, (mapM_convert_unsized _ _ Hin Hunsized).
Qed.

Lemma refit_rejects_unsized_true_match_witness :
  EntityMatchingModel.refit 0
    [VTuple [VInt 101; VStr "ext-5"]; VInt 5] Samples.refit_world
  = (Raise TypeError, Samples.refit_world).
Proof.
  apply (refit_rejects_unsized_true_match Samples.refit_world 0 Samples.model
           _ (VInt 5)).
  - reflexivity.
  - apply elem_of_cons. right. apply elem_of_cons. by left.
  - reflexivity.
Defined.

(** X16. [refit] on a model whose fit failed: the wait raises the
    [ModelFailedException] with the receiver's id and the error message of
    the last poll; no model is created (the set of live objects is the
    same), the receiver now holds status Failed, and every other object is
    untouched. *)
Theorem refit_raises_on_failed_model
    (w : EntityMatchingModel.world) (self : nat) (m : EntityMatchingModel.t)
    (true_matches true_matches' : list value)
    (pre : list response) (last : response) (rest : list response)
    (Hself : EntityMatchingModel.heap w !! self = Some m)
    (Hconv : mapM convert_true_match true_matches = Ok true_matches')
    (Hpolls : EntityMatchingModel.polls w = (pre ++ last :: rest)%list)
    (Hpre : Forall keeps_waiting pre)
    (Hlast : last !! "status" = Some (VStr "Failed")) :
  ∃ (m' : EntityMatchingModel.t) (w' : EntityMatchingModel.world),
    EntityMatchingModel.refit self true_matches w
      = (Raise (ModelFailedException "EntityMatchingModel"
                  (EntityMatchingModel.id m) (dict_get last "errorMessage")),
         w') ∧
    dom (EntityMatchingModel.heap w') = dom (EntityMatchingModel.heap w) ∧
    EntityMatchingModel.heap w' !! self = Some m' ∧
    EntityMatchingModel.status m' = VStr "Failed" ∧
    EntityMatchingModel.same_model m m' ∧
    (∀ a, a ≠ self →
          EntityMatchingModel.heap w' !! a = EntityMatchingModel.heap w !! a) ∧
    EntityMatchingModel.polls w' = rest.
Proof.
  destruct (model_wait_reaches_terminal pre m last rest (VStr "Failed")
              Hpre Hlast eq_refl)
    as (m' & Hw & Hid & Hst & Herr).
  pose proof (model_wait_same_model _ _ _ _ _ Hw) as Hsame.
  exists m'. eexists. unfold EntityMatchingModel.refit.
  rewrite Hself, Hconv, Hpolls, Hw.
  unfold EntityMatchingModel.raise_if_failed. rewrite Hst, Hid, Herr. cbn.
  split; [reflexivity |]. cbn.
  split.
  { rewrite dom_insert_L. apply (elem_of_dom_2 (D:=gset nat)) in Hself.
    set_solver. }
  split; [by rewrite lookup_insert_eq |].
  split; [reflexivity |]. split; [exact Hsame |].
  split; [| reflexivity].
  intros a Ha. by rewrite lookup_insert_ne.
Qed.

Lemma refit_raises_on_failed_model_witness :
  let w := {| EntityMatchingModel.heap := {[ 0%nat := Samples.model ]};
              EntityMatchingModel.polls := [Samples.queued; Samples.failed];
              EntityMatchingModel.post := λ _ _, ∅;
              EntityMatchingModel._load := Samples.sample_load |} in
  ∃ (m' : EntityMatchingModel.t) (w' : EntityMatchingModel.world),
    EntityMatchingModel.refit 0 [] w
      = (Raise (ModelFailedException "EntityMatchingModel" (VInt 7)
                  (VStr "out of memory")), w') ∧
    dom (EntityMatchingModel.heap w') = dom (EntityMatchingModel.heap w) ∧
    EntityMatchingModel.heap w' !! 0%nat = Some m' ∧
    EntityMatchingModel.status m' = VStr "Failed" ∧
    EntityMatchingModel.same_model Samples.model m' ∧
    (∀ a, a ≠ 0%nat →
          EntityMatchingModel.heap w' !! a = EntityMatchingModel.heap w !! a) ∧
    EntityMatchingModel.polls w' = [].
Proof.
  intros w.
  apply (refit_raises_on_failed_model w 0 Samples.model [] []
           [Samples.queued] Samples.failed []).
  - reflexivity.
  - reflexivity.
  - reflexivity.
  - repeat constructor. eexists; split; reflexivity.
  - reflexivity.
Defined.

(** X17. [predict] waits on the model first. When the model's polls end in
    a status other than Failed it hands [_run_job] one request, for the
    path [/predict], carrying the model's id and the serialized entities
    ([None] for entities that are omitted or empty); when they end in
    Failed it raises the failure of the model and [_run_job] is not
    reached, whatever it would have answered. *)
Theorem predict_waits_then_submits
    (m : EntityMatchingModel.t)
    (match_from match_to : option (list EntityMatchingModel.entity))
    (num_matches score_threshold : value)
    (_run_job : EntityMatchingModel.job_request → ContextualizationJob.t)
    (pre : list response) (last : response) (rest : list response)
    (st : value)
    (Hpre : Forall keeps_waiting pre)
    (Hlast : last !! "status" = Some st)
    (Hterminal : in_strs st ["Queued"; "Running"] = false) :
  ∃ m',
    EntityMatchingModel.predict m match_from match_to num_matches
      score_threshold _run_job (pre ++ last :: rest)
    = (if eq_str st "Failed"
       then Raise (ModelFailedException "EntityMatchingModel"
                     (EntityMatchingModel.id m) (dict_get last "errorMessage"))
       else Ok (_run_job
                  {| EntityMatchingModel.job_path := "/predict";
                     EntityMatchingModel.status_path := "/jobs/";
                     EntityMatchingModel.request_id := EntityMatchingModel.id m;
                     EntityMatchingModel.request_match_from :=
                       EntityMatchingModel.dump_entities match_from;
                     EntityMatchingModel.request_match_to :=
                       EntityMatchingModel.dump_entities match_to;
                     EntityMatchingModel.request_num_matches := num_matches;
                     EntityMatchingModel.request_score_threshold :=
                       score_threshold |}),
       m', rest) ∧
    EntityMatchingModel.status m' = st ∧
    EntityMatchingModel.same_model m m'.
Proof.
  destruct (model_wait_reaches_terminal pre m last rest st Hpre Hlast Hterminal)
    as (m' & Hw & Hid & Hst & Herr).
  pose proof (model_wait_same_model _ _ _ _ _ Hw) as Hsame.
  exists m'. split; [| by split].
  unfold EntityMatchingModel.predict. rewrite Hw.
  unfold EntityMatchingModel.raise_if_failed. rewrite Hst, Hid, Herr.
  by destruct (eq_str st "Failed").
Qed.

Lemma predict_waits_then_submits_witness :
  let _run_job (r : EntityMatchingModel.job_request) :=
    ContextualizationJob.init ContextualizationJob.cls_ContextualizationJob
                              (VInt 42) in
  ∃ m',
    EntityMatchingModel.predict Samples.model
      (Some [EntityMatchingModel.Resource Samples.pump]) None
      (VInt 1) VNone _run_job [Samples.queued; Samples.completed_bare]
    = (Ok (_run_job
             {| EntityMatchingModel.job_path := "/predict";
                EntityMatchingModel.status_path := "/jobs/";
                EntityMatchingModel.request_id := VInt 7;
                EntityMatchingModel.request_match_from :=
                  Some [VDict {[ "id" := VInt 7; "name" := VStr "pump" ]}];
                EntityMatchingModel.request_match_to := None;
                EntityMatchingModel.request_num_matches := VInt 1;
                EntityMatchingModel.request_score_threshold := VNone |}),
       m', []) ∧
    EntityMatchingModel.status m' = VStr "Completed" ∧
    EntityMatchingModel.same_model Samples.model m'.
Proof.
  intros _run_job.
  apply (predict_waits_then_submits Samples.model
           (Some [EntityMatchingModel.Resource Samples.pump]) None
           (VInt 1) VNone _run_job [Samples.queued] Samples.completed_bare
           [] (VStr "Completed")).
  - repeat constructor. eexists; split; reflexivity.
  - reflexivity.
  - reflexivity.
Defined.

(** * Further properties of the asset update builders *)

Lemma run_call_append_under (c : AssetUpdate.call) (u : gmap string value) :
  AssetUpdate.run_call c u
  = AssetUpdate.append_under (AssetUpdate.call_bucket c).1
      (AssetUpdate.call_bucket c).2 (AssetUpdate.call_entry c) u.
Proof. by destruct c. Qed.

Lemma call_bucket_valid (c : AssetUpdate.call) :
  ((AssetUpdate.call_bucket c).1 = "types" ∨
   (AssetUpdate.call_bucket c).1 = "labels") ∧
  ((AssetUpdate.call_bucket c).2 = "put" ∨
   (AssetUpdate.call_bucket c).2 = "remove").
Proof. destruct c; cbn; auto. Qed.

Lemma entries_for_cons (field which : string) (c : AssetUpdate.call)
    (cs : list AssetUpdate.call) :
  AssetUpdate.entries_for field which (c :: cs)
  = if decide (AssetUpdate.call_bucket c = (field, which))
    then AssetUpdate.call_entry c :: AssetUpdate.entries_for field which cs
    else AssetUpdate.entries_for field which cs.
Proof.
  unfold AssetUpdate.entries_for. rewrite filter_cons.
  by destruct (decide _).
Qed.

(** X18. Chained builder calls on a well-formed update object never fail,
    and each bucket ends up as what it held before followed by the entries
    of the calls aimed at it, in call order. The updates recorded for other
    fields ([name], [metadata], ...) are not touched. *)
Theorem builder_chain_records_in_order (cs : list AssetUpdate.call) :
  ∀ (u : gmap string value) (Hwf : AssetUpdate.well_formed u = true),
  ∃ u',
    AssetUpdate.run_calls cs u = Ok u' ∧
    AssetUpdate.well_formed u' = true ∧
    (∀ field which,
       AssetUpdate.bucket u' field which
       = (AssetUpdate.bucket u field which
          ++ AssetUpdate.entries_for field which cs)%list) ∧
    (∀ k, k ≠ "types" → k ≠ "labels" → u' !! k = u !! k).
Proof.
  induction cs as [| c cs IH]; intros u Hwf.
  - exists u. split; [reflexivity |]. split; [exact Hwf |].
    split; [| done]. intros f w. by rewrite app_nil_r.
  - destruct (call_bucket_valid c) as [Hf Hw].
    destruct (AssetUpdate.call_bucket c) as [fc wc] eqn:Hb. cbn in Hf, Hw.
    destruct (append_under_records fc wc (AssetUpdate.call_entry c) u Hwf Hf Hw)
      as (u1 & Hop & Hmine & Hothers & Hwf1).
    assert (Hframe : ∀ k, k ≠ "types" → k ≠ "labels" → u1 !! k = u !! k).
    { intros k Ht Hl.
      rewrite append_under_ok in Hop.
      - injection Hop as <-. apply lookup_insert_ne.
        destruct Hf as [-> | ->]; done.
      - apply andb_true_iff in Hwf as [H1 H2]. by destruct Hf as [-> | ->].
      - exact Hw. }
    destruct (IH u1 Hwf1) as (u' & Hrun & Hwf' & Hbuckets & Hkeys).
    exists u'. cbn [AssetUpdate.run_calls].
    rewrite run_call_append_under, Hb. cbn [fst snd]. rewrite Hop.
    cbn [mbind outcome_bind].
    split; [exact Hrun |]. split; [exact Hwf' |]. split.
    + intros f w. rewrite Hbuckets, entries_for_cons, Hb.
      destruct (decide ((fc, wc) = (f, w))) as [Heq | Hne].
      * injection Heq as <- <-. rewrite Hmine. by rewrite <- app_assoc.
      * rewrite Hothers; [done | congruence].
    + intros k Ht Hl. rewrite Hkeys by done. by apply Hframe.
Qed.

Lemma builder_chain_records_in_order_witness :
  let u : gmap string value :=
    {[ "name" := VDict {[ "set" := VStr "pump 7" ]} ]} in
  let cs := [AssetUpdate.call_put_label (VStr "PUMP");
             AssetUpdate.call_remove_type (VInt 1) (VInt 3) VNone;
             AssetUpdate.call_put_label (VStr "VALVE")] in
  ∃ u',
    AssetUpdate.run_calls cs u = Ok u' ∧
    AssetUpdate.well_formed u' = true ∧
    (∀ field which,
       AssetUpdate.bucket u' field which
       = (AssetUpdate.bucket u field which
          ++ AssetUpdate.entries_for field which cs)%list) ∧
    (∀ k, k ≠ "types" → k ≠ "labels" → u' !! k = u !! k).
Proof.
  intros u cs.
  apply (builder_chain_records_in_order cs u). reflexivity.
Defined.

(** * Further properties of the fan-out retrieval *)

Lemma chunks_nil (fuel chunk : nat) : AssetList.chunks fuel chunk [] = [].
Proof. by destruct fuel. Qed.

Lemma chunks_sizes (chunk : nat) :
  (0 < chunk)%nat →
  ∀ (fuel : nat) (ids : list Z),
    Forall (λ task, (0 < length task ≤ chunk)%nat)
           (AssetList.chunks fuel chunk ids).
Proof.
  intros Hchunk. induction fuel as [| fuel IH]; intros ids.
  - destruct ids; constructor.
  - destruct ids as [| a ids]; [constructor |].
    change (AssetList.chunks (S fuel) chunk (a :: ids))
      with (take chunk (a :: ids)
              :: AssetList.chunks fuel chunk (drop chunk (a :: ids))).
    constructor; [| apply IH].
    rewrite length_take. cbn [length]. lia.
Qed.

(** X19. The batches partition the parent ids: concatenated in order they
    give back the ids, none is empty and none is longer than the chunk
    size. *)
Theorem chunks_partition (chunk : nat) (ids : list Z)
    (Hchunk : (0 < chunk)%nat) :
  concat (AssetList.chunks (length ids) chunk ids) = ids ∧
  Forall (λ task, (0 < length task ≤ chunk)%nat)
         (AssetList.chunks (length ids) chunk ids).
Proof.
  split.
  - by apply chunks_concat.
  - by apply chunks_sizes.
Qed.

Lemma chunks_partition_witness :
  concat (AssetList.chunks 5 2 [1; 2; 3; 4; 5]) = [1; 2; 3; 4; 5] ∧
  Forall (λ task, (0 < length task ≤ 2)%nat)
         (AssetList.chunks 5 2 [1; 2; 3; 4; 5]).
Proof. apply (chunks_partition 2 [1; 2; 3; 4; 5]). lia. Defined.

Lemma deduplicate_subset (res : list AssetList.resource) :
  ∀ (seen seen' : gset Z) (out : list AssetList.resource),
    AssetList.deduplicate res seen = (out, seen') →
    ∀ r, r ∈ out → r ∈ res.
Proof.
  induction res as [| a res IH]; intros seen seen' out H r Hr; cbn in H.
  - injection H as <- _. inversion Hr.
  - destruct (decide (AssetList.id a ∈ seen)).
    + right. by eapply IH.
    + destruct (AssetList.deduplicate res _) as [out0 seen0] eqn:Hrec.
      injection H as <- _. apply elem_of_cons in Hr as [-> | Hr].
      * by left.
      * right. by eapply IH.
Qed.

(** Every stored task result was returned by the server for that task. *)
Lemma run_schedule_sound (list_api : list Z → list AssetList.resource)
    (tasks : list (list Z)) (schedule : list nat) :
  ∀ (seen seen' : gset Z) (results results' : gmap nat (list AssetList.resource)),
    (∀ i out, results !! i = Some out →
              ∃ asset_ids, tasks !! i = Some asset_ids ∧
                           ∀ r, r ∈ out → r ∈ list_api asset_ids) →
    AssetList.run_schedule list_api tasks schedule seen results
      = (seen', results') →
    ∀ i out, results' !! i = Some out →
             ∃ asset_ids, tasks !! i = Some asset_ids ∧
                          ∀ r, r ∈ out → r ∈ list_api asset_ids.
Proof.
  induction schedule as [| i schedule IH];
    intros seen seen' results results' Hinv Hrun; cbn in Hrun.
  - by injection Hrun as _ <-.
  - destruct (tasks !! i) as [asset_ids |] eqn:Htask; [| by eapply IH].
    destruct (AssetList.retrieve_and_deduplicate list_api asset_ids seen)
      as [out seen0] eqn:Hstep.
    eapply IH; [| exact Hrun].
    intros j o Hj. destruct (decide (i = j)) as [<- | Hne].
    + rewrite lookup_insert_eq in Hj. injection Hj as <-.
      exists asset_ids. split; [exact Htask |].
      by apply (deduplicate_subset _ _ _ _ Hstep).
    + rewrite lookup_insert_ne in Hj by done. by apply Hinv.
Qed.

Lemma related_resources_sound
    (list_api : list Z → list AssetList.resource)
    (chunk : nat) (ids : list Z) (schedule : list nat)
    (r : AssetList.resource) :
  r ∈ AssetList._retrieve_related_resources list_api chunk ids schedule →
  ∃ n asset_ids,
    AssetList.chunks (length ids) chunk ids !! n = Some asset_ids ∧
    r ∈ list_api asset_ids.
Proof.
  unfold AssetList._retrieve_related_resources,
    AssetList.execute_tasks_concurrently.
  set (tasks := AssetList.chunks (length ids) chunk ids).
  destruct (AssetList.run_schedule list_api tasks schedule ∅ ∅)
    as [seen results] eqn:Hrun.
  intros Hr. apply elem_of_concat_inv in Hr as (out & Hr & Hout).
  apply list_elem_of_fmap in Hout as (i & -> & _).
  destruct (results !! i) as [o |] eqn:Hi; cbn in Hr; [| inversion Hr].
  destruct (run_schedule_sound list_api tasks schedule ∅ seen ∅ results)
    with (i := i) (out := o) as (asset_ids & Ht & Hsub); try done.
  exists i, asset_ids. split; [exact Ht | by apply Hsub].
Qed.

(** X20. Which resources come back does not depend on the order in which
    the workers take the lock: for every order that runs each task once, an
    id is in the merged sequence exactly when the server returned a
    resource with that id for one of the batches; and every resource of the
    merged sequence is one the server returned. *)
Theorem related_resources_membership
    (list_api : list Z → list AssetList.resource)
    (chunk : nat) (ids : list Z) (schedule : list nat)
    (Hschedule :
       schedule ≡ₚ seq 0 (length (AssetList.chunks (length ids) chunk ids))) :
  (∀ x : Z,
     x ∈ AssetList.ids_of
           (AssetList._retrieve_related_resources list_api chunk ids schedule)
     ↔ ∃ n asset_ids r,
         AssetList.chunks (length ids) chunk ids !! n = Some asset_ids ∧
         r ∈ list_api asset_ids ∧ AssetList.id r = x) ∧
  (∀ r : AssetList.resource,
     r ∈ AssetList._retrieve_related_resources list_api chunk ids schedule →
     ∃ n asset_ids,
       AssetList.chunks (length ids) chunk ids !! n = Some asset_ids ∧
       r ∈ list_api asset_ids).
Proof.
  split; [| intros r; apply related_resources_sound].
  intros x. split.
  - intros Hx. apply list_elem_of_fmap in Hx as (r & -> & Hr).
    destruct (related_resources_sound _ _ _ _ _ Hr) as (n & a & Hn & Ha).
    by exists n, a, r.
  - intros (n & a & r & Hn & Hr & <-).
    by eapply related_resources_complete.
Qed.

Lemma related_resources_membership_witness :
  (∀ x : Z,
     x ∈ AssetList.ids_of
           (AssetList._retrieve_related_resources Samples.related 2
              [1; 2; 3] [1%nat; 0%nat])
     ↔ ∃ n asset_ids r,
         AssetList.chunks 3 2 [1; 2; 3] !! n = Some asset_ids ∧
         r ∈ Samples.related asset_ids ∧ AssetList.id r = x) ∧
  (∀ r : AssetList.resource,
     r ∈ AssetList._retrieve_related_resources Samples.related 2
           [1; 2; 3] [1%nat; 0%nat] →
     ∃ n asset_ids,
       AssetList.chunks 3 2 [1; 2; 3] !! n = Some asset_ids ∧
       r ∈ Samples.related asset_ids).
Proof.
  apply (related_resources_membership Samples.related 2 [1; 2; 3]
           [1%nat; 0%nat]).
  vm_compute. apply perm_swap.
Defined.

Lemma deduplicate_sublist (res : list AssetList.resource) :
  ∀ seen : gset Z, (AssetList.deduplicate res seen).1 `sublist_of` res.
Proof.
  induction res as [| a res IH]; intros seen; cbn.
  - constructor.
  - destruct (decide (AssetList.id a ∈ seen)).
    + apply sublist_cons, IH.
    + specialize (IH ({[AssetList.id a]} ∪ seen)).
      destruct (AssetList.deduplicate res _) as [out0 seen0]. cbn in *.
      by apply sublist_skip.
Qed.


(** What a critical section keeps of an answer is, for each id, its first
    occurrence. *)
Lemma deduplicate_first_occurrence (res : list AssetList.resource) :
  ∀ (seen : gset Z) (r : AssetList.resource),
    r ∈ (AssetList.deduplicate res seen).1 →
    ∃ before after,
      res = (before ++ r :: after)%list ∧
      AssetList.id r ∉ AssetList.ids_of before.
Proof.
  induction res as [| a res IH]; intros seen r Hr; cbn in Hr.
  - inversion Hr.
  - destruct (decide (AssetList.id a ∈ seen)) as [Hin | Hnin].
    + destruct (AssetList.deduplicate res seen) as [out seen'] eqn:Hd.
      destruct (deduplicate_spec _ _ _ _ Hd) as (_ & Hnew & _).
      destruct (IH seen r) as (before & after & -> & Hfirst);
        [by rewrite Hd |].
      exists (a :: before), after. split; [reflexivity |].
      cbn. rewrite not_elem_of_cons. split; [| exact Hfirst].
      intros Heq. apply (Hnew (AssetList.id r)).
      * by apply list_elem_of_fmap_2.
      * by rewrite Heq.
    + destruct (AssetList.deduplicate res ({[AssetList.id a]} ∪ seen))
        as [out seen'] eqn:Hd.
      destruct (deduplicate_spec _ _ _ _ Hd) as (_ & Hnew & _).
      cbn in Hr. apply elem_of_cons in Hr as [-> | Hr].
      * exists [], res. split; [reflexivity |]. cbn. apply not_elem_of_nil.
      * destruct (IH ({[AssetList.id a]} ∪ seen) r)
          as (before & after & -> & Hfirst); [by rewrite Hd |].
        exists (a :: before), after. split; [reflexivity |].
        cbn. rewrite not_elem_of_cons. split; [| exact Hfirst].
        intros Heq. apply (Hnew (AssetList.id r)).
        -- by apply list_elem_of_fmap_2.
        -- rewrite Heq. set_solver.
Qed.

(** X22. When all parents fit in one batch there is a single request,
    carrying all the ids, and the result is the server's answer with the
    later occurrences of an id dropped: it is a subsequence of the answer
    without repeated ids, it holds every id of the answer, and each of its
    resources is the first of the answer with that id. *)
Theorem single_batch_is_deduplicated_answer
    (list_api : list Z → list AssetList.resource)
    (chunk : nat) (ids : list Z)
    (Hnonempty : ids ≠ [])
    (Hfits : (length ids ≤ chunk)%nat) :
  let out := AssetList._retrieve_related_resources list_api chunk ids [0%nat] in
  AssetList.chunks (length ids) chunk ids = [ids] ∧
  out `sublist_of` list_api ids ∧
  NoDup (AssetList.ids_of out) ∧
  (∀ x, x ∈ AssetList.ids_of out ↔ x ∈ AssetList.ids_of (list_api ids)) ∧
  (∀ r, r ∈ out →
        ∃ before after,
          list_api ids = (before ++ r :: after)%list ∧
          AssetList.id r ∉ AssetList.ids_of before).
Proof.
  cbv zeta.
  assert (Hchunks : AssetList.chunks (length ids) chunk ids = [ids]).
  { destruct ids as [| a ids]; [done |]. cbn [length].
    change (AssetList.chunks (S (length ids)) chunk (a :: ids))
      with (take chunk (a :: ids)
              :: AssetList.chunks (length ids) chunk (drop chunk (a :: ids))).
    rewrite take_ge, drop_ge by exact Hfits. by rewrite chunks_nil. }
  assert (Hout : AssetList._retrieve_related_resources list_api chunk ids [0%nat]
                 = (AssetList.deduplicate (list_api ids) ∅).1).
  { unfold AssetList._retrieve_related_resources,
      AssetList.execute_tasks_concurrently. rewrite Hchunks.
    cbn. unfold AssetList.retrieve_and_deduplicate.
    destruct (AssetList.deduplicate (list_api ids) ∅) as [out seen]. cbn.
    rewrite lookup_insert_eq. cbn. apply app_nil_r. }
  rewrite Hout. split; [exact Hchunks |].
  split; [apply deduplicate_sublist |].
  destruct (AssetList.deduplicate (list_api ids) ∅) as [out seen] eqn:Hd.
  destruct (deduplicate_spec _ _ _ _ Hd) as (Hnd & Hnew & Hseen & Hall).
  cbn [fst]. split; [exact Hnd |]. split.
  - intros x. split.
    + intros Hx. apply list_elem_of_fmap in Hx as (r & -> & Hr).
      apply list_elem_of_fmap_2. by eapply deduplicate_subset.
    + intros Hx. apply Hall, Hseen in Hx as [Hx | Hx]; [| exact Hx].
      by apply not_elem_of_empty in Hx.
  - intros r Hr. apply (deduplicate_first_occurrence (list_api ids) ∅).
    by rewrite Hd.
Qed.

Lemma single_batch_is_deduplicated_answer_witness :
  let answer := [AssetList.mk_resource 100 {[ "name" := VStr "first" ]};
                 AssetList.mk_resource 101 ∅;
                 AssetList.mk_resource 100 {[ "name" := VStr "again" ]}] in
  let out :=
    AssetList._retrieve_related_resources (λ _, answer) 100 [1; 2; 3] [0%nat] in
  AssetList.chunks 3 100 [1; 2; 3] = [[1; 2; 3]] ∧
  out `sublist_of` answer ∧
  NoDup (AssetList.ids_of out) ∧
  (∀ x, x ∈ AssetList.ids_of out ↔ x ∈ AssetList.ids_of answer) ∧
  (∀ r, r ∈ out →
        ∃ before after,
          answer = (before ++ r :: after)%list ∧
          AssetList.id r ∉ AssetList.ids_of before).
Proof.
  intros answer.
  apply (single_batch_is_deduplicated_answer (λ _, answer) 100 [1; 2; 3]).
  - discriminate.
  - cbn. lia.
Defined.

(** On that answer the first resource with id 100 is the one kept. *)
Lemma single_batch_keeps_first :
  AssetList._retrieve_related_resources
    (λ _, [AssetList.mk_resource 100 {[ "name" := VStr "first" ]};
           AssetList.mk_resource 101 ∅;
           AssetList.mk_resource 100 {[ "name" := VStr "again" ]}])
    100 [1; 2; 3] [0%nat]
  = [AssetList.mk_resource 100 {[ "name" := VStr "first" ]};
     AssetList.mk_resource 101 ∅].
Proof. vm_compute. reflexivity. Qed.
